(** * The text processor of the demo package

    A shallow embedding of [src/demo/core/text_processor.py] (class
    [SimpleTextProcessor]) and of the decorator in
    [src/demo/utils/profiling.py], with the properties the specification
    states about normalisation, tokenisation, word count and word frequency.

    Python strings are sequences of Unicode code points; the built-ins the
    class calls ([str.strip], [re.sub], [re.split], [list.count],
    [isinstance], [type(..).__name__]) are modelled in module [Py].  The
    methods live in a state-and-exception monad over the processor object, so
    that "raises" and "leaves [self] unchanged" are statements about their
    results.  Calls to the structured logger are observability only and are
    left out.

    The commands of [src/demo/cli.py] (module [Cli]) and the file update of
    [scripts/update_project_name.py] (module [Script]) follow, over a model
    of the files they read and write. *)

From Stdlib Require Import List NArith ZArith Bool String Ascii Lia.
Import ListNotations.

Set Implicit Arguments.

(** ** The Python runtime the class relies on *)

Module Py.

(** A code point, and [str] as the sequence of its code points. *)
Definition Py_UCS4 := N.
Definition str := list Py_UCS4.

Definition TAB : Py_UCS4 := 9%N.
Definition SPACE : Py_UCS4 := 32%N.

(** [str.isspace] on one code point (CPython's [_PyUnicode_IsWhitespace]):
    the set [str.strip()] trims and the class [\s] of a [str] pattern matches. *)
Definition Py_UNICODE_ISSPACE (ch : Py_UCS4) : bool :=
  ((0x09 <=? ch) && (ch <=? 0x0D) ||
   (0x1C <=? ch) && (ch <=? 0x20) ||
   (ch =? 0x85) || (ch =? 0xA0) || (ch =? 0x1680) ||
   (0x2000 <=? ch) && (ch <=? 0x200A) ||
   (ch =? 0x2028) || (ch =? 0x2029) || (ch =? 0x202F) ||
   (ch =? 0x205F) || (ch =? 0x3000))%N.

(** The six characters the specification names: space, tab, newline,
    carriage return, form feed, vertical tab. *)
Definition named_whitespace (ch : Py_UCS4) : bool :=
  ((ch =? 0x20) || (ch =? 0x09) || (ch =? 0x0A) || (ch =? 0x0D) ||
   (ch =? 0x0C) || (ch =? 0x0B))%N.

Definition is_tab (ch : Py_UCS4) : bool := (ch =? TAB)%N.

Section Scan.
Variable p : Py_UCS4 -> bool.

(** Advance over the longest prefix whose characters satisfy [p]. *)
Fixpoint skip_while (s : str) : str :=
  match s with
  | [] => []
  | c :: s' => if p c then skip_while s' else s
  end.

Fixpoint span_while (s : str) : str :=
  match s with
  | [] => []
  | c :: s' => if p c then c :: span_while s' else []
  end.
End Scan.

(** [s.lstrip()], [s.rstrip()], [s.strip()] with no argument: the index [i]
    moves right from the start and [j] moves left from the end while the
    character is whitespace; the result is [s[i:j]]. *)
Definition lstrip (s : str) : str := skip_while Py_UNICODE_ISSPACE s.
Definition rstrip (s : str) : str := rev (skip_while Py_UNICODE_ISSPACE (rev s)).
Definition str_strip (s : str) : str := rstrip (lstrip s).

(** [re.sub(r"\t+", " ", s)]: scanning left to right, each greedy match of
    [\t+] is replaced by one space; [in_run] says that the scan is inside a
    match that has already been replaced. *)
Fixpoint sub_tabs (in_run : bool) (s : str) : str :=
  match s with
  | [] => []
  | c :: s' =>
      if is_tab c
      then (if in_run then sub_tabs true s' else SPACE :: sub_tabs true s')
      else c :: sub_tabs false s'
  end.

Definition re_sub_tabs (s : str) : str := sub_tabs false s.

(** [re.split(r"\s+", s)]: the pieces of [s] between the greedy matches of
    [\s+], the piece before the first match and the piece after the last one
    included, empty or not ([re.split(r"\s+", "")] is [['']]).  [in_sep] says
    that the scan is inside a match. *)
Fixpoint split_ws (in_sep : bool) (s : str) : list str :=
  match s with
  | [] => [[]]
  | c :: s' =>
      if Py_UNICODE_ISSPACE c
      then (if in_sep then split_ws true s' else [] :: split_ws true s')
      else match split_ws false s' with
           | piece :: pieces => (c :: piece) :: pieces
           | [] => [[c]]
           end
  end.

Definition re_split_ws (s : str) : list str := split_ws false s.

(** [a == b] on two [str] values. *)
Fixpoint str_eqb (a b : str) : bool :=
  match a, b with
  | [], [] => true
  | x :: a', y :: b' => (x =? y)%N && str_eqb a' b'
  | _, _ => false
  end.

(** The objects a caller can pass where a [str] is expected. *)
#[warnings="-register-all"]
Inductive object : Type :=
| PyNone
| PyBool (b : bool)
| PyInt (z : Z)
| PyStr (s : str)
| PyBytes (b : list N)
| PyList (l : list object).

(** [isinstance(o, str)] *)
Definition isinstance_str (o : object) : bool :=
  match o with PyStr _ => true | _ => false end.

(** [type(o).__name__] *)
Definition type_name (o : object) : string :=
  match o with
  | PyNone => "NoneType"
  | PyBool _ => "bool"
  | PyInt _ => "int"
  | PyStr _ => "str"
  | PyBytes _ => "bytes"
  | PyList _ => "list"
  end%string.

(** [tok == o] for a [str] token and any object. *)
Definition str_eq_object (tok : str) (o : object) : bool :=
  match o with PyStr w => str_eqb tok w | _ => false end.

(** [tokens.count(o)] *)
Fixpoint list_count (tokens : list str) (o : object) : Z :=
  match tokens with
  | [] => 0
  | tok :: tokens' =>
      ((if str_eq_object tok o then 1 else 0) + list_count tokens' o)%Z
  end.

(** A [str] literal of ASCII characters. *)
Definition u (s : string) : str := map N_of_ascii (list_ascii_of_string s).

End Py.

Import Py.

(** ** Exceptions and the method monad *)

Inductive exn : Type :=
| TypeError (msg : string).

Inductive result (A : Type) : Type :=
| Ok (a : A)
| Raise (e : exn).
Arguments Ok {A} a.
Arguments Raise {A} e.

(** The object: [__init__] stores the raw text in [self.text]. *)
Record SimpleTextProcessor : Type := mkSimpleTextProcessor { text : str }.

(** A method body: it runs on [self] and gives a value or raises, and the
    object as it is afterwards. *)
Definition M (A : Type) : Type :=
  SimpleTextProcessor -> result A * SimpleTextProcessor.

Definition ret {A} (a : A) : M A := fun self => (Ok a, self).

Definition bind {A B} (m : M A) (k : A -> M B) : M B :=
  fun self =>
    match m self with
    | (Ok a, self') => k a self'
    | (Raise e, self') => (Raise e, self')
    end.

Definition raise {A} (e : exn) : M A := fun self => (Raise e, self).

(** [self.text] *)
Definition self_text : M str := fun self => (Ok (text self), self).

(** [try: body / except Exception as e: logger.exception(..); raise]: the
    handler logs and raises the same exception again. *)
Definition try_log_reraise {A} (body : M A) : M A :=
  fun self =>
    match body self with
    | (Ok a, self') => (Ok a, self')
    | (Raise e, self') => (Raise e, self')
    end.

Declare Scope method_scope.
Delimit Scope method_scope with method.
Notation "x <- m ;; k" := (bind m (fun x => k))
  (at level 61, m at next level, right associativity) : method_scope.
Open Scope method_scope.

(** ** utils/profiling.py *)

(** [profile(func)] returns [wrapper], which calls [func] with the arguments
    it was given and returns what [func] returns. *)
Definition profile {A} (func : M A) : M A :=
  let wrapper := fun self => func self in
  wrapper.

(** ** core/text_processor.py *)

Definition preprocess : M str :=
  try_log_reraise (
    t <- self_text ;;
    let result := str_strip t in
    let result := re_sub_tabs result in
    ret result).

Definition tokenize : M (list str) :=
  try_log_reraise (
    preprocessed <- preprocess ;;
    match preprocessed with
    | [] => ret []
    | _ :: _ =>
        let tokens := re_split_ws preprocessed in
        ret tokens
    end).

Definition count_words : M Z :=
  profile (try_log_reraise (
    tokens <- tokenize ;;
    let count := Z.of_nat (List.length tokens) in
    ret count)).

Definition word_frequency (word : object) : M Z :=
  try_log_reraise (
    if negb (isinstance_str word)
    then raise (TypeError ("Expected str, got " ++ type_name word))
    else
      tokens <- tokenize ;;
      let frequency := list_count tokens word in
      ret frequency).

(** ** The specification's notions, as predicates

    They are parameterised by the set [ws] of characters that count as
    whitespace, so that the same statement can be read with the six
    characters the specification names and with the set Python uses. *)

Section Whitespace.
Variable ws : Py_UCS4 -> bool.

(** [s] neither starts nor ends with whitespace. *)
Definition trimmed (s : str) : bool :=
  match s with
  | [] => true
  | c :: _ => negb (ws c) && negb (ws (last s c))
  end.

(** [s] is [t] with its leading and trailing whitespace removed. *)
Definition Stripped (t s : str) : Prop :=
  exists pre post,
    t = pre ++ s ++ post
    /\ forallb ws pre = true /\ forallb ws post = true
    /\ trimmed s = true.

(** A token: non-empty, without whitespace.  A separator: a non-empty run
    of whitespace. *)
Definition is_token (tok : str) : Prop :=
  tok <> [] /\ forallb (fun c => negb (ws c)) tok = true.

Definition is_separator (sep : str) : Prop :=
  sep <> [] /\ forallb ws sep = true.

(** [toks] are the pieces of [s] between its whitespace runs: [s] is
    [tok1 sep1 tok2 sep2 ... tokn] with every [tok] a token and every [sep]
    a separator (which is then a maximal run, its neighbours not being
    whitespace). *)
Inductive WhitespaceSplit : str -> list str -> Prop :=
| WS_last tok :
    is_token tok -> WhitespaceSplit tok [tok]
| WS_more tok sep s toks :
    is_token tok -> is_separator sep -> WhitespaceSplit s toks ->
    WhitespaceSplit (tok ++ sep ++ s) (tok :: toks).
End Whitespace.

(** [r] is [s] with every maximal run of one or more tabs replaced by one
    space and every other character kept. *)
Inductive TabsCollapsed : str -> str -> Prop :=
| TC_end : TabsCollapsed [] []
| TC_keep c s r :
    c <> TAB -> TabsCollapsed s r -> TabsCollapsed (c :: s) (c :: r)
| TC_run n s r :
    hd_error s <> Some TAB -> TabsCollapsed s r ->
    TabsCollapsed (repeat TAB (S n) ++ s) (SPACE :: r).

(** The statement of normalisation, for a given set of whitespace. *)
Definition normalize_claim (ws : Py_UCS4 -> bool) (t : str) : Prop :=
  exists s r,
    preprocess (mkSimpleTextProcessor t) = (Ok r, mkSimpleTextProcessor t)
    /\ Stripped ws t s /\ TabsCollapsed s r.

Definition not_space (c : Py_UCS4) : bool := negb (Py_UNICODE_ISSPACE c).

(** The text [preprocess] computes from the raw text [t], and the tokens
    [tokenize] computes from it. *)
Definition normalized (t : str) : str := re_sub_tabs (str_strip t).

Definition tokens_of (t : str) : list str :=
  match normalized t with
  | [] => []
  | _ :: _ => re_split_ws (normalized t)
  end.

(** Equality of token values is decidable; the reference count of the
    specification uses it. *)
Definition str_eq_dec : forall a b : str, {a = b} + {a <> b} :=
  list_eq_dec N.eq_dec.

(** The distinct tokens of a token sequence ([set(tokens)]). *)
Definition distinct (tokens : list str) : list str := nodup str_eq_dec tokens.

(** [sum(f(tok) for tok in toks)] for a method [f] that may raise. *)
Fixpoint sum_over (f : str -> M Z) (toks : list str) : M Z :=
  match toks with
  | [] => ret 0%Z
  | tok :: toks' =>
      n <- f tok ;;
      rest <- sum_over f toks' ;;
      ret (n + rest)%Z
  end.

(** [total f d] is the sum of [f x] over the elements [x] of [d];
    [hits a x] is the contribution of one occurrence of [a] to the count
    of [x]. *)
Definition total (f : str -> Z) (d : list str) : Z :=
  fold_right (fun x acc => (f x + acc)%Z) 0%Z d.

Definition hits (a x : str) : Z := if str_eq_dec a x then 1%Z else 0%Z.

(** The non-empty pieces of [re.split(r"\s+", t)]:
    [[p for p in re.split(r"\s+", t) if p]]. *)
Definition nonempty (s : str) : bool :=
  match s with [] => false | _ :: _ => true end.

Definition pieces (t : str) : list str := filter nonempty (re_split_ws t).

(** [tok] occurs in [t] as a contiguous run of characters. *)
Definition occurs_in (tok t : str) : Prop := exists a b, t = a ++ tok ++ b.

(** ** cli.py

    The commands after [argparse] has parsed the command line: they read
    the parsed arguments, may read one file, print to standard output or
    standard error, and return the exit code. *)

Module Cli.

(** A [pathlib.Path], by the text [str(path)] gives. *)
Definition Path := string.

(** What [file.read_text(encoding="utf-8")] does in the file system the
    command runs in: it returns the content, raises [FileNotFoundError], or
    raises another exception [e] (a directory, no permission, bytes that
    are not UTF-8), given by [str(e)]. *)
Inductive read_result : Type :=
| Content (s : str)
| NotFound
| Unreadable (msg : string).

Definition FileSystem := Path -> read_result.

(** The exceptions that reach the handlers of the commands. *)
Inductive exception : Type :=
| ValueError (msg : string)
| FileNotFoundError (msg : string)
| OtherError (msg : string)
| ProcessorError (e : exn).

(** [str(e)] *)
Definition str_exception (e : exception) : string :=
  match e with
  | ValueError msg | FileNotFoundError msg | OtherError msg => msg
  | ProcessorError (TypeError msg) => msg
  end.

Inductive outcome (A : Type) : Type :=
| Return (a : A)
| Raised (e : exception).
Arguments Return {A} a.
Arguments Raised {A} e.

Definition and_then {A B} (m : outcome A) (k : A -> outcome B) : outcome B :=
  match m with
  | Return a => k a
  | Raised e => Raised e
  end.

(** The [argparse.Namespace]: the subcommand, the text (positional for
    [count], [-t/--text] for [freq]), [--file], and the word of [freq]. *)
Record Namespace : Type := mkNamespace {
  args_command : option string;
  args_text : option str;
  args_file : option Path;
  args_word : str
}.

(** Truth values: a [str] or [None] is true when it is a non-empty string;
    a [Path] or [None] is true when it is a path. *)
Definition truthy_str (text : option str) : bool :=
  match text with Some (_ :: _) => true | _ => false end.

Definition truthy_path (file : option Path) : bool :=
  match file with Some _ => true | None => false end.

Definition get_text_input (fs : FileSystem)
    (text : option str) (file : option Path) : outcome (option str) :=
  if truthy_str text && truthy_path file
  then Raised (ValueError "Cannot specify both text and file")
  else if negb (truthy_str text) && negb (truthy_path file)
  then Raised (ValueError "Must specify either text or file")
  else
    match file with
    | Some f =>
        match fs f with
        | Content s => Return (Some s)
        | NotFound => Raised (FileNotFoundError ("File not found: " ++ f))
        | Unreadable msg => Raised (OtherError msg)
        end
    | None => Return text
    end.

(** [SimpleTextProcessor(text)]: [__init__] stores the text and takes
    [len(text)] for its log line, which raises on [None]. *)
Definition new_processor (text : option str) : outcome SimpleTextProcessor :=
  match text with
  | Some t => Return (mkSimpleTextProcessor t)
  | None =>
      Raised (ProcessorError (TypeError "object of type 'NoneType' has no len()"))
  end.

(** A method call on a processor. *)
Definition call {A} (method : M A) (processor : SimpleTextProcessor)
    : outcome A :=
  match fst (method processor) with
  | Ok a => Return a
  | Raise e => Raised (ProcessorError e)
  end.

(** What a command prints: [print(n)] of a number, a line on standard
    error, or the help text of the parser. *)
Inductive event : Type :=
| Stdout (n : Z)
| Stderr (line : string)
| Help.

(** [try: ...; print(result); return 0 / except Exception as e:
    print(f"Error: {e}", file=sys.stderr); return 1] *)
Definition report (body : outcome Z) : Z * list event :=
  match body with
  | Return n => (0%Z, [Stdout n])
  | Raised e => (1%Z, [Stderr ("Error: " ++ str_exception e)])
  end.

Definition cmd_count (fs : FileSystem) (args : Namespace) : Z * list event :=
  report (
    and_then (get_text_input fs (args_text args) (args_file args)) (fun text =>
    and_then (new_processor text) (fun processor =>
    call count_words processor))).

Definition cmd_freq (fs : FileSystem) (args : Namespace) : Z * list event :=
  report (
    and_then (get_text_input fs (args_text args) (args_file args)) (fun text =>
    and_then (new_processor text) (fun processor =>
    call (word_frequency (PyStr (args_word args))) processor))).

(** [main], from the parsed arguments on. *)
Definition main (fs : FileSystem) (args : Namespace) : Z * list event :=
  match args_command args with
  | None => (1%Z, [Help])
  | Some command =>
      if (command =? "")%string then (1%Z, [Help])
      else if (command =? "count")%string then cmd_count fs args
      else if (command =? "freq")%string then cmd_freq fs args
      else (1%Z, [Stderr ("Unknown command: " ++ command)])
  end.

End Cli.

Import Cli.

(** ** scripts/update_project_name.py

    The replacement pairs of the renaming script and the update of one
    file with them. *)

Module Script.

(** [s.startswith(p)] *)
Fixpoint starts_with (p s : str) : bool :=
  match p, s with
  | [], _ => true
  | x :: p', y :: s' => (x =? y)%N && starts_with p' s'
  | _ :: _, [] => false
  end.

(** [p in s]: [p] starts at some position of [s]. *)
Fixpoint str_in (p s : str) : bool :=
  starts_with p s
  || match s with
     | [] => false
     | _ :: s' => str_in p s'
     end.

(** [s.count(p)] for a non-empty [p]: the occurrences found from left to
    right, the search going on after the end of each one; [skip] characters
    of the last occurrence are still to be passed. *)
Fixpoint count_from (p : str) (skip : nat) (s : str) : Z :=
  match s with
  | [] => 0
  | _ :: s' =>
      match skip with
      | S k => count_from p k s'
      | O =>
          if starts_with p s
          then (1 + count_from p (List.length p - 1) s')%Z
          else count_from p 0 s'
      end
  end.

(** [s.count(p)]; the empty string occurs at every position, the end
    included. *)
Definition str_count (s p : str) : Z :=
  match p with
  | [] => (Z.of_nat (List.length s) + 1)%Z
  | _ :: _ => count_from p 0 s
  end.

(** [s.replace(p, r)] for a non-empty [p], over the same occurrences. *)
Fixpoint replace_from (p r : str) (skip : nat) (s : str) : str :=
  match s with
  | [] => []
  | c :: s' =>
      match skip with
      | S k => replace_from p r k s'
      | O =>
          if starts_with p s
          then r ++ replace_from p r (List.length p - 1) s'
          else c :: replace_from p r 0 s'
      end
  end.

(** [s.replace(p, r)]; for the empty [p], [r] goes before every character
    and at the end. *)
Definition str_replace (s p r : str) : str :=
  match p with
  | [] => r ++ flat_map (fun c => c :: r) s
  | _ :: _ => replace_from p r 0 s
  end.

Definition get_replacements (old_name new_name : str) : list (str * str) :=
  let old_hyphen := str_replace old_name (u "_") (u "-") in
  let new_hyphen := str_replace new_name (u "_") (u "-") in
  [ (old_name, new_name);
    (old_hyphen, new_hyphen);
    ([34%N] ++ old_name ++ [34%N], [34%N] ++ new_name ++ [34%N]);
    ([39%N] ++ old_name ++ [39%N], [39%N] ++ new_name ++ [39%N]);
    ([34%N] ++ old_hyphen ++ [34%N], [34%N] ++ new_hyphen ++ [34%N]);
    ([39%N] ++ old_hyphen ++ [39%N], [39%N] ++ new_hyphen ++ [39%N]);
    (u "from " ++ old_name, u "from " ++ new_name);
    (u "import " ++ old_name, u "import " ++ new_name);
    ([96%N] ++ old_name ++ [96%N], [96%N] ++ new_name ++ [96%N]);
    ([96%N] ++ old_hyphen ++ [96%N], [96%N] ++ new_hyphen ++ [96%N]) ].

(** The files the script works on: what [path.read_text] gives, and
    whether [path.write_text] succeeds. *)
Record Files : Type := mkFiles {
  read_text : Path -> read_result;
  can_write : Path -> bool
}.

Definition write_text (fs : Files) (path : Path) (content : str) : Files :=
  {| read_text := fun p =>
       if (p =? path)%string then Content content else read_text fs p;
     can_write := can_write fs |}.

Record ReplacementStats : Type := mkReplacementStats {
  file_path : Path;
  replacements_made : Z
}.

(** One turn of the loop over the pairs, on [(content, total_replacements)]. *)
Definition apply_replacement (state : str * Z) (pair : str * str) : str * Z :=
  let '(content, total_replacements) := state in
  let '(old_str, new_str) := pair in
  if str_in old_str content
  then
    let replacement_count := str_count content old_str in
    (str_replace content old_str new_str,
     (total_replacements + replacement_count)%Z)
  else state.

(** [update_file_contents]: any exception, of the read or of the write,
    ends in [ReplacementStats(path, 0)]. *)
Definition update_file_contents (path : Path)
    (replacements : list (str * str)) (dry_run : bool) (fs : Files)
    : ReplacementStats * Files :=
  match read_text fs path with
  | Content content0 =>
      let '(content, total_replacements) :=
        fold_left apply_replacement replacements (content0, 0%Z) in
      if (0 <? total_replacements)%Z && negb dry_run
      then
        if can_write fs path
        then (mkReplacementStats path total_replacements,
              write_text fs path content)
        else (mkReplacementStats path 0, fs)
      else (mkReplacementStats path total_replacements, fs)
  | NotFound | Unreadable _ => (mkReplacementStats path 0, fs)
  end.

End Script.

Import Script.

(** ** Scenarios of the unit tests *)

Example preprocess_trims_and_converts_tabs :
  preprocess (mkSimpleTextProcessor ([TAB] ++ u "Hello " ++ [10%N]))
  = (Ok (u "Hello"), mkSimpleTextProcessor ([TAB] ++ u "Hello " ++ [10%N])).
Proof. reflexivity. Qed.

Example preprocess_multiple_tabs :
  fst (preprocess (mkSimpleTextProcessor (u "Hello" ++ [TAB; TAB] ++ u "world")))
  = Ok (u "Hello world").
Proof. reflexivity. Qed.

Example tokenize_splits_on_whitespace :
  fst (tokenize (mkSimpleTextProcessor (u "a  b" ++ [TAB] ++ u "c")))
  = Ok [u "a"; u "b"; u "c"].
Proof. reflexivity. Qed.

Example tokenize_empty_string :
  fst (tokenize (mkSimpleTextProcessor [])) = Ok []
  /\ fst (count_words (mkSimpleTextProcessor [])) = Ok 0%Z.
Proof. split; reflexivity. Qed.

Example word_frequency_present_absent :
  fst (word_frequency (PyStr (u "spam")) (mkSimpleTextProcessor (u "spam spam eggs"))) = Ok 2%Z
  /\ fst (word_frequency (PyStr (u "ham")) (mkSimpleTextProcessor (u "spam spam eggs"))) = Ok 0%Z.
Proof. split; reflexivity. Qed.

Example word_frequency_case_sensitive :
  fst (word_frequency (PyStr (u "hello")) (mkSimpleTextProcessor (u "Hello hello HELLO"))) = Ok 1%Z.
Proof. reflexivity. Qed.

Example word_frequency_takes_word_as_is :
  fst (word_frequency (PyStr (u " spam")) (mkSimpleTextProcessor (u "spam spam eggs"))) = Ok 0%Z
  /\ fst (word_frequency (PyStr (u "SPAM")) (mkSimpleTextProcessor (u "spam spam eggs"))) = Ok 0%Z.
Proof. split; reflexivity. Qed.

Example word_frequency_none :
  fst (word_frequency PyNone (mkSimpleTextProcessor (u "hello world")))
  = Raise (TypeError "Expected str, got NoneType").
Proof. reflexivity. Qed.

Example re_split_keeps_outer_empty_pieces :
  re_split_ws [] = [[]]
  /\ re_split_ws (u " a  b ") = [[]; u "a"; u "b"; []].
Proof. split; reflexivity. Qed.

(** ** Scanning: [skip_while] and [span_while] *)

Section ScanFacts.
Variable p : Py_UCS4 -> bool.

Lemma span_skip (s : str) : span_while p s ++ skip_while p s = s.
Proof.
  induction s as [|c s IH]; simpl; [reflexivity|].
  destruct (p c); simpl; [now rewrite IH | reflexivity].
Qed.

Lemma span_all (s : str) : forallb p (span_while p s) = true.
Proof.
  induction s as [|c s IH]; simpl; [reflexivity|].
  destruct (p c) eqn:E; simpl; [now rewrite E | reflexivity].
Qed.

Lemma skip_head (s : str) c r : skip_while p s = c :: r -> p c = false.
Proof.
  induction s as [|d s IH]; simpl; [discriminate|].
  destruct (p d) eqn:E; [exact IH|].
  intros H; injection H as -> _; exact E.
Qed.

Lemma skip_stop c (s : str) : p c = false -> skip_while p (c :: s) = c :: s.
Proof. intros H; simpl; now rewrite H. Qed.

Lemma skip_all (s : str) : forallb p s = true -> skip_while p s = [].
Proof.
  induction s as [|c s IH]; simpl; [reflexivity|].
  destruct (p c); simpl; [exact IH | discriminate].
Qed.

Lemma skip_app_all (a s : str) :
  forallb p a = true -> skip_while p (a ++ s) = skip_while p s.
Proof.
  induction a as [|c a IH]; simpl; [reflexivity|].
  destruct (p c); simpl; [exact IH | discriminate].
Qed.

Lemma span_skip_unique (tok rest : str) :
  forallb p tok = true ->
  match rest with [] => True | c :: _ => p c = false end ->
  span_while p (tok ++ rest) = tok /\ skip_while p (tok ++ rest) = rest.
Proof.
  intros Htok Hrest. induction tok as [|c tok IH]; simpl in *.
  - destruct rest as [|c rest]; simpl; [now split|]. now rewrite Hrest.
  - apply andb_true_iff in Htok. destruct Htok as [Hc Htok].
    rewrite Hc. destruct (IH Htok) as [-> ->]. now split.
Qed.

Lemma forallb_rev (s : str) : forallb p (rev s) = forallb p s.
Proof.
  induction s as [|c s IH]; simpl; [reflexivity|].
  rewrite forallb_app, IH; simpl. rewrite andb_true_r. apply andb_comm.
Qed.
End ScanFacts.

(** ** [trimmed], by the first and the last character *)

Section TrimmedFacts.
Variable ws : Py_UCS4 -> bool.

Lemma trimmed_ends (s : str) c r x d :
  s = c :: r -> s = x ++ [d] -> ws c = false -> ws d = false ->
  trimmed ws s = true.
Proof.
  intros Hc Hd Ec Ed. subst s. unfold trimmed.
  rewrite Hd, last_last, Ec, Ed. reflexivity.
Qed.

Lemma trimmed_first c (r : str) : trimmed ws (c :: r) = true -> ws c = false.
Proof.
  simpl. intros H. apply andb_true_iff in H. destruct H as [H _].
  now apply negb_true_iff in H.
Qed.

Lemma trimmed_last (x : str) d : trimmed ws (x ++ [d]) = true -> ws d = false.
Proof.
  destruct x as [|c x]; simpl.
  - intros H. apply andb_true_iff in H. destruct H as [H _].
    now apply negb_true_iff in H.
  - intros H. apply andb_true_iff in H. destruct H as [_ H].
    apply negb_true_iff in H.
    change (ws (last ((c :: x) ++ [d]) c) = false) in H.
    now rewrite last_last in H.
Qed.

Lemma snoc_cases (s : str) : s = [] \/ exists x d, s = x ++ [d].
Proof.
  destruct (rev s) as [|d y] eqn:E.
  - left. apply (f_equal (@rev _)) in E. now rewrite rev_involutive in E.
  - right. exists (rev y), d.
    apply (f_equal (@rev _)) in E. now rewrite rev_involutive in E.
Qed.
End TrimmedFacts.

(** ** The descriptions determine their result *)

Section Determined.
Variable ws : Py_UCS4 -> bool.

(** What [Stripped] describes is the text between the first and the last
    character that is not whitespace. *)
Lemma Stripped_determined (t s : str) :
  Stripped ws t s -> s = rev (skip_while ws (rev (skip_while ws t))).
Proof.
  intros (pre & post & -> & Hpre & Hpost & T).
  rewrite skip_app_all by assumption.
  destruct s as [|c r] eqn:Es.
  - simpl. now rewrite (skip_all _ _ Hpost).
  - rewrite <- Es in *.
    assert (Hc : ws c = false)
      by (rewrite Es in T; now apply trimmed_first in T).
    replace (skip_while ws (s ++ post)) with (s ++ post)
      by (rewrite Es; simpl; now rewrite Hc).
    rewrite rev_app_distr, skip_app_all by now rewrite forallb_rev.
    destruct (snoc_cases s) as [E|(x & d & E)]; [congruence|].
    rewrite E in T |- *. apply trimmed_last in T.
    rewrite rev_app_distr. simpl. rewrite T. simpl.
    now rewrite rev_involutive.
Qed.

Lemma WhitespaceSplit_head (s : str) toks :
  WhitespaceSplit ws s toks -> exists c r, s = c :: r /\ ws c = false.
Proof.
  intros H.
  assert (Htok : exists tok rest, s = tok ++ rest /\ is_token ws tok).
  { destruct H as [tok Ht|tok sep s toks Ht _ _].
    - exists tok, []. now rewrite app_nil_r.
    - eauto. }
  destruct Htok as (tok & rest & -> & Hne & Hall).
  destruct tok as [|c tok]; [contradiction|].
  simpl in Hall. apply andb_true_iff in Hall. destruct Hall as [Hc _].
  apply negb_true_iff in Hc. simpl. eauto.
Qed.

(** The first token is the longest whitespace-free prefix, and the other
    tokens split what follows the whitespace after it. *)
Lemma WhitespaceSplit_first (s : str) toks :
  WhitespaceSplit ws s toks ->
  exists toks',
    toks = span_while (fun c => negb (ws c)) s :: toks'
    /\ match skip_while (fun c => negb (ws c)) s with
       | [] => toks' = []
       | rest => WhitespaceSplit ws (skip_while ws rest) toks'
       end.
Proof.
  intros H. destruct H as [tok [Hne Ht]|tok sep s toks [Hne Ht] [Hs Hsep] H].
  - exists [].
    destruct (span_skip_unique _ tok [] Ht I) as [E1 E2].
    rewrite app_nil_r in E1, E2. rewrite E1, E2. now split.
  - exists toks.
    destruct sep as [|w sep]; [contradiction|].
    simpl in Hsep. apply andb_true_iff in Hsep. destruct Hsep as [Hw Hsep].
    destruct (span_skip_unique (fun c => negb (ws c)) tok ((w :: sep) ++ s) Ht)
      as [-> ->]; [simpl; now rewrite Hw|].
    split; [reflexivity|].
    cbn [app skip_while]. rewrite Hw, skip_app_all by assumption.
    destruct (WhitespaceSplit_head H) as (c & r & -> & Hc).
    simpl. now rewrite Hc.
Qed.

Lemma WhitespaceSplit_determined (s : str) toks1 :
  WhitespaceSplit ws s toks1 ->
  forall toks2, WhitespaceSplit ws s toks2 -> toks1 = toks2.
Proof.
  induction 1 as [tok [Hne Ht]|tok sep s toks [Hne Ht] [Hs Hsep] H IH];
    intros toks2 H2; apply WhitespaceSplit_first in H2;
    destruct H2 as (toks' & -> & Hrest).
  - destruct (span_skip_unique _ tok [] Ht I) as [E1 E2].
    rewrite app_nil_r in E1, E2.
    rewrite E2 in Hrest. rewrite E1. now subst toks'.
  - destruct sep as [|w sep]; [contradiction|].
    simpl in Hsep. apply andb_true_iff in Hsep. destruct Hsep as [Hw Hsep].
    destruct (span_skip_unique (fun c => negb (ws c)) tok ((w :: sep) ++ s) Ht)
      as [E1 E2]; [simpl; now rewrite Hw|].
    rewrite E2 in Hrest. rewrite E1. f_equal. apply IH.
    cbn [app skip_while] in Hrest.
    rewrite Hw, skip_app_all in Hrest by assumption.
    destruct (WhitespaceSplit_head H) as (c & r & E & Hc).
    rewrite E in Hrest |- *. simpl in Hrest. now rewrite Hc in Hrest.
Qed.
End Determined.

(** ** [str.strip] *)

Lemma isspace_TAB : Py_UNICODE_ISSPACE TAB = true.
Proof. reflexivity. Qed.

Lemma isspace_SPACE : Py_UNICODE_ISSPACE SPACE = true.
Proof. reflexivity. Qed.

Lemma named_is_whitespace c :
  named_whitespace c = true -> Py_UNICODE_ISSPACE c = true.
Proof.
  unfold named_whitespace, Py_UNICODE_ISSPACE. intros H.
  repeat (apply orb_true_iff in H; destruct H as [H|H]);
    apply N.eqb_eq in H; subst c; reflexivity.
Qed.

Lemma is_tab_eq c : is_tab c = true <-> c = TAB.
Proof. unfold is_tab. apply N.eqb_eq. Qed.

Lemma not_space_not_tab c : Py_UNICODE_ISSPACE c = false -> is_tab c = false.
Proof.
  intros H. destruct (is_tab c) eqn:E; [|reflexivity].
  apply is_tab_eq in E; subst c. now rewrite isspace_TAB in H.
Qed.

Lemma lstrip_decomp (t : str) :
  t = span_while Py_UNICODE_ISSPACE t ++ lstrip t.
Proof. unfold lstrip. now rewrite span_skip. Qed.

Lemma rstrip_decomp (t : str) :
  t = rstrip t ++ rev (span_while Py_UNICODE_ISSPACE (rev t)).
Proof.
  unfold rstrip. rewrite <- rev_app_distr, span_skip. now rewrite rev_involutive.
Qed.

Lemma rstrip_last (t x : str) d :
  rstrip t = x ++ [d] -> Py_UNICODE_ISSPACE d = false.
Proof.
  unfold rstrip. intros H.
  apply (f_equal (@rev _)) in H. rewrite rev_involutive, rev_app_distr in H.
  simpl in H. now apply skip_head in H.
Qed.

Lemma rstrip_first (t : str) c r :
  rstrip t = c :: r -> exists r', t = c :: r'.
Proof.
  intros H. rewrite (rstrip_decomp t), H. simpl. eauto.
Qed.

Lemma strip_trimmed (t : str) : trimmed Py_UNICODE_ISSPACE (str_strip t) = true.
Proof.
  destruct (str_strip t) as [|c r] eqn:E; [reflexivity|].
  rewrite <- E.
  destruct (snoc_cases (str_strip t)) as [H|(x & d & H)]; [congruence|].
  apply trimmed_ends with (c := c) (r := r) (x := x) (d := d); trivial.
  - unfold str_strip in E. apply rstrip_first in E. destruct E as [r' E].
    now apply skip_head in E.
  - unfold str_strip in H. now apply rstrip_last in H.
Qed.

Lemma strip_stripped (t : str) : Stripped Py_UNICODE_ISSPACE t (str_strip t).
Proof.
  exists (span_while Py_UNICODE_ISSPACE t),
         (rev (span_while Py_UNICODE_ISSPACE (rev (lstrip t)))).
  repeat split.
  - unfold str_strip. rewrite <- rstrip_decomp. apply lstrip_decomp.
  - apply span_all.
  - rewrite forallb_rev. apply span_all.
  - apply strip_trimmed.
Qed.

Lemma strip_of_trimmed (s : str) :
  trimmed Py_UNICODE_ISSPACE s = true -> str_strip s = s.
Proof.
  intros H. destruct s as [|c r]; [reflexivity|].
  assert (Hc := trimmed_first _ _ _ H).
  unfold str_strip, lstrip. rewrite skip_stop by assumption.
  destruct (snoc_cases (c :: r)) as [E|(x & d & E)]; [discriminate|].
  rewrite E in H |- *. apply trimmed_last in H.
  unfold rstrip. rewrite rev_app_distr. simpl.
  rewrite H. simpl. now rewrite rev_involutive.
Qed.

(** ** [re.sub] on tab runs *)

Lemma is_tab_SPACE : is_tab SPACE = false.
Proof. reflexivity. Qed.

Lemma sub_tabs_snoc b (x : str) d :
  is_tab d = false -> sub_tabs b (x ++ [d]) = sub_tabs b x ++ [d].
Proof.
  intros Hd. revert b.
  induction x as [|c x IH]; intros b; simpl.
  - now rewrite Hd.
  - destruct (is_tab c); [destruct b|]; simpl; now rewrite IH.
Qed.

Lemma sub_tabs_no_tab b (s : str) :
  forallb (fun c => negb (is_tab c)) (sub_tabs b s) = true.
Proof.
  revert b. induction s as [|c s IH]; intros b; simpl; [reflexivity|].
  destruct (is_tab c) eqn:E; [destruct b|]; simpl; rewrite ?E, ?IH; reflexivity.
Qed.

Lemma sub_tabs_fixed b (s : str) :
  forallb (fun c => negb (is_tab c)) s = true -> sub_tabs b s = s.
Proof.
  revert b. induction s as [|c s IH]; intros b; simpl; [reflexivity|].
  destruct (is_tab c); simpl; [discriminate|].
  intros H. now rewrite IH.
Qed.

Lemma repeat_shift (c : Py_UCS4) n (s : str) :
  repeat c n ++ c :: s = c :: repeat c n ++ s.
Proof. induction n as [|n IH]; simpl; [reflexivity | now rewrite IH]. Qed.

(** The scan replaces each maximal run by one space: both for a scan that
    starts outside a run, and for one that has just replaced [S n] tabs. *)
Lemma sub_tabs_collapsed (s : str) :
  TabsCollapsed s (sub_tabs false s)
  /\ forall n, TabsCollapsed (repeat TAB (S n) ++ s) (SPACE :: sub_tabs true s).
Proof.
  induction s as [|c s [IHout IHin]].
  - split; [constructor|]. intros n. apply TC_run; [discriminate | constructor].
  - destruct (is_tab c) eqn:E.
    + apply is_tab_eq in E. subst c. split.
      * change (TabsCollapsed (repeat TAB 1 ++ s) (SPACE :: sub_tabs true s)).
        apply IHin.
      * intros n. change (sub_tabs true (TAB :: s)) with (sub_tabs true s).
        rewrite repeat_shift. apply (IHin (S n)).
    + assert (Hc : c <> TAB) by (intros ->; discriminate).
      assert (Hout : TabsCollapsed (c :: s) (sub_tabs false (c :: s))).
      { simpl. rewrite E. now apply TC_keep. }
      split; [exact Hout|].
      intros n. replace (sub_tabs true (c :: s)) with (sub_tabs false (c :: s))
        by (simpl; now rewrite E).
      apply TC_run; [|exact Hout].
      simpl. intros H. injection H as H. contradiction.
Qed.

Lemma re_sub_tabs_collapsed (s : str) : TabsCollapsed s (re_sub_tabs s).
Proof. apply sub_tabs_collapsed. Qed.

(** The description determines the result: the relation is a function. *)
Lemma TabsCollapsed_tab_head s r :
  TabsCollapsed (TAB :: s) r ->
  exists n s' r', TAB :: s = repeat TAB (S n) ++ s' /\ r = SPACE :: r'
                  /\ hd_error s' <> Some TAB /\ TabsCollapsed s' r'.
Proof.
  intros H. inversion H; subst.
  - congruence.
  - eexists _, _, _. repeat split; eauto.
Qed.

Lemma repeat_tab_inj n m (s s' : str) :
  hd_error s <> Some TAB -> hd_error s' <> Some TAB ->
  repeat TAB n ++ s = repeat TAB m ++ s' -> s = s'.
Proof.
  revert m. induction n as [|n IH]; intros [|m] Hs Hs' E; simpl in E.
  - exact E.
  - subst s. simpl in Hs. congruence.
  - subst s'. simpl in Hs'. congruence.
  - injection E as E. eauto.
Qed.

Lemma TabsCollapsed_functional s r1 :
  TabsCollapsed s r1 -> forall r2, TabsCollapsed s r2 -> r1 = r2.
Proof.
  induction 1 as [|c s r Hc H IH|n s r Hs H IH]; intros r2 H2.
  - inversion H2; subst; try reflexivity; discriminate.
  - inversion H2; subst.
    + f_equal. now apply IH.
    + simpl in *. congruence.
  - simpl in H2. apply TabsCollapsed_tab_head in H2.
    destruct H2 as (m & s' & r' & E & -> & Hs' & H').
    f_equal. apply IH.
    change (TAB :: repeat TAB n ++ s) with (repeat TAB (S n) ++ s) in E.
    apply repeat_tab_inj in E; trivial. now subst s'.
Qed.

(** ** The normalised text *)

Lemma preprocess_run self :
  preprocess self = (Ok (normalized (text self)), self).
Proof. reflexivity. Qed.

Lemma normalized_trimmed (t : str) :
  trimmed Py_UNICODE_ISSPACE (normalized t) = true.
Proof.
  unfold normalized, re_sub_tabs.
  assert (H := strip_trimmed t).
  destruct (str_strip t) as [|c r] eqn:E; [reflexivity|].
  assert (Hc := trimmed_first _ _ _ H).
  destruct (snoc_cases (c :: r)) as [E'|(x & d & E')]; [discriminate|].
  assert (Hd : Py_UNICODE_ISSPACE d = false)
    by (rewrite E' in H; now apply trimmed_last in H).
  eapply trimmed_ends with (c := c) (d := d); trivial.
  - simpl. rewrite (not_space_not_tab _ Hc). reflexivity.
  - rewrite E'. apply sub_tabs_snoc. now apply not_space_not_tab.
Qed.

Lemma normalized_nonempty (t : str) : str_strip t <> [] -> normalized t <> [].
Proof.
  unfold normalized, re_sub_tabs. intros H.
  assert (T := strip_trimmed t).
  destruct (str_strip t) as [|c r]; [congruence|].
  apply trimmed_first in T. simpl.
  rewrite (not_space_not_tab _ T). discriminate.
Qed.

Lemma normalized_idempotent (t : str) : normalized (normalized t) = normalized t.
Proof.
  unfold normalized at 1.
  rewrite strip_of_trimmed by apply normalized_trimmed.
  apply sub_tabs_fixed. apply sub_tabs_no_tab.
Qed.

(** ** [re.split] on whitespace runs *)

Lemma split_ws_nonempty b (s : str) : split_ws b s <> [].
Proof.
  destruct s as [|c s]; simpl; [discriminate|].
  destruct (Py_UNICODE_ISSPACE c); [destruct b; [|discriminate]|].
  - revert c. induction s as [|d s IH]; intros c; simpl; [discriminate|].
    destruct (Py_UNICODE_ISSPACE d); [apply (IH d)|].
    destruct (split_ws false s); discriminate.
  - destruct (split_ws false s); discriminate.
Qed.

(** Inside a separator the scan goes on as a fresh scan of the text after
    the separator. *)
Lemma split_ws_in_sep (s : str) : split_ws true s = split_ws false (lstrip s).
Proof.
  unfold lstrip. induction s as [|c s IH]; [reflexivity|].
  simpl. destruct (Py_UNICODE_ISSPACE c) eqn:E; [exact IH|].
  simpl. now rewrite E.
Qed.

Lemma split_ws_sep c (rest : str) :
  Py_UNICODE_ISSPACE c = true ->
  split_ws false (c :: rest) = [] :: split_ws false (lstrip rest).
Proof. intros H. simpl. now rewrite H, split_ws_in_sep. Qed.

Lemma split_ws_token (tok rest : str) :
  forallb not_space tok = true ->
  split_ws false (tok ++ rest)
  = (tok ++ hd [] (split_ws false rest)) :: tl (split_ws false rest).
Proof.
  induction tok as [|c tok IH]; simpl; intros H.
  - assert (N := split_ws_nonempty false rest).
    destruct (split_ws false rest); [contradiction | reflexivity].
  - apply andb_true_iff in H. destruct H as [Hc H].
    apply negb_true_iff in Hc. rewrite Hc, (IH H). reflexivity.
Qed.

Lemma trimmed_suffix (a s : str) :
  trimmed Py_UNICODE_ISSPACE (a ++ s) = true ->
  (forall c r, s = c :: r -> Py_UNICODE_ISSPACE c = false) ->
  trimmed Py_UNICODE_ISSPACE s = true.
Proof.
  intros T Hhd. destruct s as [|c r] eqn:E; [reflexivity|]. rewrite <- E.
  destruct (snoc_cases s) as [H|(x & d & H)]; [congruence|].
  apply trimmed_ends with (c := c) (r := r) (x := x) (d := d); eauto.
  rewrite <- E, H, app_assoc in T. now apply trimmed_last in T.
Qed.

Lemma trimmed_no_space_end (a sep : str) :
  sep <> [] -> forallb Py_UNICODE_ISSPACE sep = true ->
  trimmed Py_UNICODE_ISSPACE (a ++ sep) = false.
Proof.
  intros Hne Hall.
  destruct (snoc_cases sep) as [H|(x & d & H)]; [contradiction|].
  subst sep. rewrite forallb_app in Hall. simpl in Hall.
  apply andb_true_iff in Hall. destruct Hall as [_ Hd].
  rewrite andb_true_r in Hd.
  destruct (trimmed Py_UNICODE_ISSPACE (a ++ x ++ [d])) eqn:T; [|reflexivity].
  rewrite app_assoc in T. apply trimmed_last in T. congruence.
Qed.

Lemma split_trimmed n : forall s : str,
  List.length s <= n -> s <> [] -> trimmed Py_UNICODE_ISSPACE s = true ->
  WhitespaceSplit Py_UNICODE_ISSPACE s (re_split_ws s).
Proof.
  unfold re_split_ws.
  induction n as [|n IH]; intros s Hlen Hne T.
  - destruct s; [contradiction | simpl in Hlen; lia].
  - destruct s as [|c r] eqn:Es; [contradiction|]. rewrite <- Es in *.
    assert (Hc : Py_UNICODE_ISSPACE c = false)
      by (rewrite Es in T; now apply trimmed_first in T).
    pose (tok := span_while not_space s).
    pose (rest := skip_while not_space s).
    assert (Hs : s = tok ++ rest) by (symmetry; apply span_skip).
    assert (Htok : is_token Py_UNICODE_ISSPACE tok).
    { split; [|apply (span_all not_space)].
      unfold tok. rewrite Es. simpl. unfold not_space at 1.
      rewrite Hc. discriminate. }
    destruct rest as [|w rest'] eqn:Er.
    + rewrite app_nil_r in Hs. rewrite Hs at 2.
      rewrite <- (app_nil_r tok) at 1.
      rewrite split_ws_token by apply Htok. simpl.
      rewrite Hs, app_nil_r. now apply WS_last.
    + assert (Hw : Py_UNICODE_ISSPACE w = true).
      { apply (skip_head not_space) in Er. now apply negb_false_iff in Er. }
      pose (sep := w :: span_while Py_UNICODE_ISSPACE rest').
      assert (Hsep : is_separator Py_UNICODE_ISSPACE sep).
      { split; [discriminate|]. simpl. rewrite Hw. apply span_all. }
      assert (Hs' : s = tok ++ sep ++ lstrip rest').
      { rewrite Hs. unfold sep, lstrip. simpl. now rewrite span_skip. }
      rewrite Hs at 2.
      rewrite split_ws_token by apply Htok.
      rewrite split_ws_sep by assumption. simpl. rewrite app_nil_r.
      rewrite Hs' at 1.
      apply WS_more; trivial.
      assert (Hne' : lstrip rest' <> []).
      { intros E. rewrite E, app_nil_r in Hs'. rewrite Hs' in T.
        rewrite trimmed_no_space_end in T by apply Hsep. discriminate. }
      apply IH; trivial.
      * apply (f_equal (@List.length _)) in Hs'.
        rewrite !length_app in Hs'. unfold sep in Hs'. simpl in Hs'.
        destruct Htok as [Htok _].
        destruct tok; [contradiction|]. simpl in Hs'. lia.
      * apply trimmed_suffix with (a := tok ++ sep).
        -- now rewrite <- app_assoc, <- Hs'.
        -- intros d q E. unfold lstrip in E. now apply skip_head in E.
Qed.

Lemma WhitespaceSplit_tokens ws (s : str) toks :
  WhitespaceSplit ws s toks -> toks <> [] /\ Forall (is_token ws) toks.
Proof.
  induction 1 as [tok H|tok sep s toks Ht Hs H [_ IH]].
  - split; [discriminate | constructor; [exact H | constructor]].
  - split; [discriminate | constructor; assumption].
Qed.

(** ** What the methods return *)

Lemma tokenize_run self : tokenize self = (Ok (tokens_of (text self)), self).
Proof.
  unfold tokenize, try_log_reraise, bind. rewrite preprocess_run.
  unfold tokens_of. destruct (normalized (text self)); reflexivity.
Qed.

Lemma count_words_run self :
  count_words self = (Ok (Z.of_nat (List.length (tokens_of (text self)))), self).
Proof.
  unfold count_words, profile, try_log_reraise, bind.
  now rewrite tokenize_run.
Qed.

Lemma tokens_of_split (t : str) :
  normalized t <> [] ->
  WhitespaceSplit Py_UNICODE_ISSPACE (normalized t) (tokens_of t).
Proof.
  intros H. unfold tokens_of.
  destruct (normalized t) as [|c r] eqn:E; [contradiction|]. rewrite <- E.
  apply split_trimmed with (n := List.length (normalized t)); trivial.
  - congruence.
  - apply normalized_trimmed.
Qed.

Lemma tokens_of_tokens (t : str) :
  Forall (is_token Py_UNICODE_ISSPACE) (tokens_of t).
Proof.
  destruct (normalized t) as [|c r] eqn:E.
  - unfold tokens_of. rewrite E. constructor.
  - apply (WhitespaceSplit_tokens (s := normalized t)).
    apply tokens_of_split. congruence.
Qed.

(** ** [list.count] and the reference count *)

Lemma str_eqb_eq (a b : str) : str_eqb a b = true <-> a = b.
Proof.
  revert b. induction a as [|x a IH]; intros [|y b]; simpl;
    try (split; [discriminate | congruence]); [tauto|].
  rewrite andb_true_iff, N.eqb_eq, IH.
  split; [intros [-> ->]; reflexivity | intros H; injection H; auto].
Qed.

Lemma list_count_occ (toks : list str) (w : str) :
  list_count toks (PyStr w) = Z.of_nat (count_occ str_eq_dec toks w).
Proof.
  induction toks as [|tok toks IH]; [reflexivity|].
  cbn [list_count str_eq_object]. rewrite IH.
  destruct (str_eq_dec tok w) as [E|E].
  - rewrite (count_occ_cons_eq _ _ E).
    apply str_eqb_eq in E. rewrite E. lia.
  - rewrite (count_occ_cons_neq _ _ E).
    destruct (str_eqb tok w) eqn:B; [apply str_eqb_eq in B; contradiction|].
    lia.
Qed.

Lemma word_frequency_run self (w : str) :
  word_frequency (PyStr w) self
  = (Ok (Z.of_nat (count_occ str_eq_dec (tokens_of (text self)) w)), self).
Proof.
  unfold word_frequency, try_log_reraise, bind. simpl.
  now rewrite tokenize_run, list_count_occ.
Qed.

Lemma word_frequency_raises self (word : object) :
  isinstance_str word = false ->
  word_frequency word self
  = (Raise (TypeError ("Expected str, got " ++ type_name word)), self).
Proof.
  intros H. unfold word_frequency, try_log_reraise. now rewrite H.
Qed.

(** ** Summing the frequencies of the distinct tokens *)

Lemma total_cons f x d : total f (x :: d) = (f x + total f d)%Z.
Proof. reflexivity. Qed.

Lemma total_hits_out a d : ~ In a d -> total (hits a) d = 0%Z.
Proof.
  induction d as [|x d IH]; simpl; intros H; [reflexivity|].
  unfold hits at 1. destruct (str_eq_dec a x) as [E|E].
  - exfalso. apply H. left. congruence.
  - rewrite IH; [reflexivity | tauto].
Qed.

Lemma total_hits_in a d : NoDup d -> In a d -> total (hits a) d = 1%Z.
Proof.
  induction 1 as [|x d Hx Hd IH]; simpl; [tauto|].
  intros Ha. unfold hits at 1. destruct (str_eq_dec a x) as [E|E].
  - subst x. now rewrite total_hits_out.
  - destruct Ha as [Ha|Ha]; [congruence | now rewrite IH].
Qed.

Lemma total_count_cons a l d :
  total (fun x => Z.of_nat (count_occ str_eq_dec (a :: l) x)) d
  = (total (hits a) d + total (fun x => Z.of_nat (count_occ str_eq_dec l x)) d)%Z.
Proof.
  induction d as [|x d IH]; [reflexivity|].
  rewrite !total_cons, IH.
  change (hits a x) with (if str_eq_dec a x then 1%Z else 0%Z).
  destruct (str_eq_dec a x) as [E|E].
  - rewrite (count_occ_cons_eq _ _ E). lia.
  - rewrite (count_occ_cons_neq _ _ E). lia.
Qed.

Lemma total_count l : forall d,
  NoDup d -> incl l d ->
  total (fun x => Z.of_nat (count_occ str_eq_dec l x)) d = Z.of_nat (List.length l).
Proof.
  induction l as [|a l IH]; intros d Hd Hin.
  - clear. induction d as [|x d IH]; [reflexivity|].
    rewrite total_cons, IH. reflexivity.
  - rewrite total_count_cons, total_hits_in, IH; trivial.
    + simpl List.length. lia.
    + intros x Hx. apply Hin. now right.
    + apply Hin. now left.
Qed.

Lemma sum_over_frequencies self d :
  sum_over (fun tok => word_frequency (PyStr tok)) d self
  = (Ok (total (fun x =>
           Z.of_nat (count_occ str_eq_dec (tokens_of (text self)) x)) d), self).
Proof.
  induction d as [|x d IH]; [reflexivity|].
  cbn [sum_over]. unfold bind at 1. rewrite word_frequency_run.
  unfold bind at 1. rewrite IH. reflexivity.
Qed.

(** ** The properties of the specification *)

(** C1 (as amended). For every input text, [preprocess] never fails, leaves
    the processor as it was, and returns the text with its leading and
    trailing whitespace removed and then every maximal run of one or more
    tabs replaced by exactly one space, every other character (internal
    spaces and newlines among them) kept.  Whitespace is what Python's
    [str.strip()] trims: the six characters the specification names (space,
    tab, newline, carriage return, form feed, vertical tab) and the other
    Unicode whitespace characters (U+001C to U+001F, U+0085, U+00A0, ...).
    The description fits no other text than the one returned. *)
Theorem preprocess_normalizes (t : str) :
  normalize_claim Py_UNICODE_ISSPACE t
  /\ (forall s r,
        Stripped Py_UNICODE_ISSPACE t s -> TabsCollapsed s r ->
        preprocess (mkSimpleTextProcessor t) = (Ok r, mkSimpleTextProcessor t))
  /\ forallb Py_UNICODE_ISSPACE [0x20; 0x09; 0x0A; 0x0D; 0x0C; 0x0B]%N = true.
Proof.
  split; [|split; [|reflexivity]].
  - exists (str_strip t), (normalized t).
    split; [apply preprocess_run|].
    split; [apply strip_stripped | apply re_sub_tabs_collapsed].
  - intros s r Hs Hr. rewrite preprocess_run. cbn [text].
    apply Stripped_determined in Hs.
    change (s = str_strip t) in Hs. subst s.
    now rewrite (TabsCollapsed_functional Hr (re_sub_tabs_collapsed _)).
Qed.

(** C1 as the specification states it, with whitespace being exactly the six
    named characters, fails on a text that starts with a no-break space
    (U+00A0): [preprocess] removes it, the statement keeps it. *)
Lemma preprocess_not_only_named_whitespace :
  ~ normalize_claim named_whitespace [0xA0; 0x48]%N.
Proof.
  intros (s & r & Hrun & (pre & post & Ht & Hpre & Hpost & _) & Hcol).
  injection Hrun as <-.
  destruct pre as [|c pre]; [|injection Ht as <- _; discriminate].
  simpl in Ht.
  assert (s = [0xA0; 0x48]%N) as ->.
  { destruct s as [|a [|b [|? ?]]]; simpl in Ht.
    - subst post. discriminate.
    - injection Ht as <- <-. discriminate.
    - now injection Ht as <- <- _.
    - discriminate. }
  inversion Hcol.
Qed.

(** C2. For every input text, [tokenize] never fails and leaves the
    processor as it was; when the normalised text is empty it returns the
    empty sequence, and otherwise the normalised text is
    [tok1 sep1 tok2 ... sepk tok(k+1)] with the returned tokens, each
    non-empty and free of whitespace, in this order, and separators that are
    non-empty runs of whitespace; no other token sequence splits the
    normalised text in this way. *)
Theorem tokenize_splits_normalized (t : str) :
  exists n toks,
    preprocess (mkSimpleTextProcessor t) = (Ok n, mkSimpleTextProcessor t)
    /\ tokenize (mkSimpleTextProcessor t) = (Ok toks, mkSimpleTextProcessor t)
    /\ match n with
       | [] => toks = []
       | _ :: _ =>
           WhitespaceSplit Py_UNICODE_ISSPACE n toks
           /\ forall toks',
                WhitespaceSplit Py_UNICODE_ISSPACE n toks' -> toks' = toks
       end.
Proof.
  exists (normalized t), (tokens_of t).
  split; [apply preprocess_run|].
  split; [apply tokenize_run|].
  destruct (normalized t) as [|c r] eqn:E.
  - unfold tokens_of. now rewrite E.
  - rewrite <- E.
    assert (H : WhitespaceSplit Py_UNICODE_ISSPACE (normalized t) (tokens_of t))
      by (apply tokens_of_split; congruence).
    split; [exact H|].
    intros toks' H'. exact (WhitespaceSplit_determined H' H).
Qed.

(** C3. For every text and every string [w], [word_frequency(w)] returns
    the number of elements of [tokenize()] that are equal to [w], [w] taken
    as it is. *)
Theorem word_frequency_counts (t w : str) :
  exists toks,
    tokenize (mkSimpleTextProcessor t) = (Ok toks, mkSimpleTextProcessor t)
    /\ word_frequency (PyStr w) (mkSimpleTextProcessor t)
       = (Ok (Z.of_nat (count_occ str_eq_dec toks w)), mkSimpleTextProcessor t).
Proof.
  exists (tokens_of t). split; [apply tokenize_run | apply word_frequency_run].
Qed.

(** C4. [word_frequency(word)] raises exactly when [word] is not a [str];
    what it raises is the [TypeError] whose message names the type of
    [word], and the processor is as it was.  [preprocess], [tokenize] and
    [count_words] return a value on every text. *)
Theorem word_frequency_type_error (t : str) (word : object) :
  ((exists e, fst (word_frequency word (mkSimpleTextProcessor t)) = Raise e)
   <-> isinstance_str word = false)
  /\ (forall e,
        fst (word_frequency word (mkSimpleTextProcessor t)) = Raise e ->
        e = TypeError ("Expected str, got " ++ type_name word)
        /\ snd (word_frequency word (mkSimpleTextProcessor t))
           = mkSimpleTextProcessor t)
  /\ (exists n,
        preprocess (mkSimpleTextProcessor t) = (Ok n, mkSimpleTextProcessor t))
  /\ (exists toks,
        tokenize (mkSimpleTextProcessor t) = (Ok toks, mkSimpleTextProcessor t))
  /\ (exists count,
        count_words (mkSimpleTextProcessor t)
        = (Ok count, mkSimpleTextProcessor t)).
Proof.
  repeat split.
  - intros [e He]. destruct word; try reflexivity.
    rewrite word_frequency_run in He. discriminate.
  - intros H. rewrite (word_frequency_raises _ _ H). cbn [fst]. eauto.
  - destruct (isinstance_str word) eqn:I.
    + destruct word; try discriminate.
      rewrite word_frequency_run in H. discriminate.
    + rewrite (word_frequency_raises _ _ I) in H. cbn [fst] in H.
      now injection H as <-.
  - destruct (isinstance_str word) eqn:I.
    + destruct word; try discriminate.
      rewrite word_frequency_run in H. discriminate.
    + now rewrite (word_frequency_raises _ _ I).
  - eexists. apply preprocess_run.
  - eexists. apply tokenize_run.
  - eexists. apply count_words_run.
Qed.

(** C5. For every text, the sum of [word_frequency(tok)] over the distinct
    tokens of [tokenize()] is what [count_words()] returns, and a text with
    no token has count 0. *)
Theorem frequencies_sum_to_count (t : str) :
  exists toks count,
    tokenize (mkSimpleTextProcessor t) = (Ok toks, mkSimpleTextProcessor t)
    /\ sum_over (fun tok => word_frequency (PyStr tok)) (distinct toks)
         (mkSimpleTextProcessor t)
       = (Ok count, mkSimpleTextProcessor t)
    /\ count_words (mkSimpleTextProcessor t)
       = (Ok count, mkSimpleTextProcessor t)
    /\ (toks = [] -> count = 0%Z).
Proof.
  exists (tokens_of t), (Z.of_nat (List.length (tokens_of t))).
  split; [apply tokenize_run|].
  split; [|split; [apply count_words_run|]].
  - rewrite sum_over_frequencies. cbn [text]. rewrite total_count; trivial.
    + apply NoDup_nodup.
    + intros x Hx. now apply nodup_In.
  - intros E. now rewrite E.
Qed.

(** C6. Normalisation is idempotent: [preprocess] on the text that
    [preprocess] returned returns that text. *)
Theorem preprocess_idempotent (t : str) :
  exists n,
    preprocess (mkSimpleTextProcessor t) = (Ok n, mkSimpleTextProcessor t)
    /\ preprocess (mkSimpleTextProcessor n) = (Ok n, mkSimpleTextProcessor n).
Proof.
  exists (normalized t). split; [reflexivity|].
  rewrite preprocess_run. cbn [text]. now rewrite normalized_idempotent.
Qed.

(** C7. For every text, [count_words()] returns the length of the sequence
    [tokenize()] returns, never fails, and is at least 0; the [profile]
    decorator returns what the function it wraps returns. *)
Theorem count_words_is_token_count (t : str) :
  exists toks,
    tokenize (mkSimpleTextProcessor t) = (Ok toks, mkSimpleTextProcessor t)
    /\ count_words (mkSimpleTextProcessor t)
       = (Ok (Z.of_nat (List.length toks)), mkSimpleTextProcessor t)
    /\ (0 <= Z.of_nat (List.length toks))%Z
    /\ (forall (A : Type) (func : M A) self, profile func self = func self).
Proof.
  exists (tokens_of t).
  split; [apply tokenize_run|].
  split; [apply count_words_run|].
  split; [lia | reflexivity].
Qed.

(** C8. For every text whose [strip()] is non-empty, the normalised text is
    non-empty and the word count is positive. *)
Theorem nonblank_has_words (t : str) :
  str_strip t <> [] ->
  exists n count,
    preprocess (mkSimpleTextProcessor t) = (Ok n, mkSimpleTextProcessor t)
    /\ n <> []
    /\ count_words (mkSimpleTextProcessor t)
       = (Ok count, mkSimpleTextProcessor t)
    /\ (0 < count)%Z.
Proof.
  intros H. apply normalized_nonempty in H.
  exists (normalized t), (Z.of_nat (List.length (tokens_of t))).
  split; [apply preprocess_run|].
  split; [exact H|].
  split; [apply count_words_run|].
  - destruct (WhitespaceSplit_tokens (@tokens_of_split t H)) as [Hne _].
    destruct (tokens_of t); [contradiction | simpl; lia].
Qed.

(** The scenario of the unit test, ["\tHello \n"], is such a text. *)
Lemma nonblank_has_words_witness :
  exists n count,
    preprocess (mkSimpleTextProcessor ([TAB] ++ u "Hello " ++ [10%N]))
    = (Ok n, mkSimpleTextProcessor ([TAB] ++ u "Hello " ++ [10%N]))
    /\ n <> []
    /\ count_words (mkSimpleTextProcessor ([TAB] ++ u "Hello " ++ [10%N]))
       = (Ok count, mkSimpleTextProcessor ([TAB] ++ u "Hello " ++ [10%N]))
    /\ (0 < count)%Z.
Proof.
  apply (nonblank_has_words ([TAB] ++ u "Hello " ++ [10%N])).
  vm_compute. discriminate.
Defined.

(** C9. For every text, the empty string is not an element of [tokenize()],
    and [word_frequency("")] returns 0. *)
Theorem empty_word_never_counted (t : str) :
  exists toks,
    tokenize (mkSimpleTextProcessor t) = (Ok toks, mkSimpleTextProcessor t)
    /\ ~ In [] toks
    /\ word_frequency (PyStr []) (mkSimpleTextProcessor t)
       = (Ok 0%Z, mkSimpleTextProcessor t).
Proof.
  assert (Hno : ~ In [] (tokens_of t)).
  { intros Hin. assert (F := tokens_of_tokens t).
    rewrite Forall_forall in F. destruct (F _ Hin) as [Hne _]. now apply Hne. }
  exists (tokens_of t).
  split; [apply tokenize_run|].
  split; [exact Hno|].
  - rewrite word_frequency_run. cbn [text].
    now rewrite (proj1 (count_occ_not_In str_eq_dec _ _) Hno).
Qed.

(** C10. For every text, no element of [tokenize()] contains a whitespace
    character; so [word_frequency(w)] returns 0 for every [w] that contains
    one. *)
Theorem tokens_have_no_whitespace (t : str) :
  exists toks,
    tokenize (mkSimpleTextProcessor t) = (Ok toks, mkSimpleTextProcessor t)
    /\ Forall (fun tok => existsb Py_UNICODE_ISSPACE tok = false) toks
    /\ forall w,
         existsb Py_UNICODE_ISSPACE w = true ->
         word_frequency (PyStr w) (mkSimpleTextProcessor t)
         = (Ok 0%Z, mkSimpleTextProcessor t).
Proof.
  assert (Hfree : Forall (fun tok => existsb Py_UNICODE_ISSPACE tok = false)
                         (tokens_of t)).
  { eapply Forall_impl; [|apply tokens_of_tokens].
    intros tok [_ H]. clear -H.
    induction tok as [|c tok IH]; [reflexivity|].
    simpl in *. apply andb_true_iff in H. destruct H as [Hc H].
    apply negb_true_iff in Hc. now rewrite Hc, IH. }
  exists (tokens_of t).
  split; [apply tokenize_run|].
  split; [exact Hfree|].
  - intros w Hw. rewrite word_frequency_run. cbn [text].
    rewrite (proj1 (count_occ_not_In str_eq_dec _ _)); [reflexivity|].
    intros Hin. rewrite Forall_forall in Hfree.
    rewrite (Hfree _ Hin) in Hw. discriminate.
Qed.

(** On ["a b c"], the words ["a b"], ["a\tb"] and [" "] have frequency 0. *)
Lemma tokens_have_no_whitespace_witness :
  word_frequency (PyStr (u "a b")) (mkSimpleTextProcessor (u "a b c"))
  = (Ok 0%Z, mkSimpleTextProcessor (u "a b c"))
  /\ word_frequency (PyStr (u "a" ++ [TAB] ++ u "b")) (mkSimpleTextProcessor (u "a b c"))
     = (Ok 0%Z, mkSimpleTextProcessor (u "a b c"))
  /\ word_frequency (PyStr (u " ")) (mkSimpleTextProcessor (u "a b c"))
     = (Ok 0%Z, mkSimpleTextProcessor (u "a b c")).
Proof.
  destruct (tokens_have_no_whitespace (u "a b c")) as (toks & _ & _ & H).
  repeat split; apply H; reflexivity.
Defined.

(** ** Tokens and the raw text *)

Lemma split_ws_cons b (s : str) :
  split_ws b s = hd [] (split_ws b s) :: tl (split_ws b s).
Proof.
  assert (H := split_ws_nonempty b s).
  destruct (split_ws b s); [contradiction | reflexivity].
Qed.

Lemma split_ws_char c (s : str) b :
  Py_UNICODE_ISSPACE c = false ->
  split_ws b (c :: s)
  = (c :: hd [] (split_ws false s)) :: tl (split_ws false s).
Proof.
  intros H. simpl. rewrite H.
  rewrite (split_ws_cons false s) at 1. reflexivity.
Qed.

(** The substitution of tab runs changes no piece: a run of tabs is part of
    a run of whitespace before and after it. *)
Lemma split_sub_tabs (s : str) :
  forall in_sep in_run, (in_run = true -> in_sep = true) ->
  split_ws in_sep (sub_tabs in_run s) = split_ws in_sep s.
Proof.
  induction s as [|c s IH]; intros f r Hfr; [reflexivity|].
  destruct (is_tab c) eqn:T.
  - assert (c = TAB) by now apply is_tab_eq. subst c.
    simpl sub_tabs. destruct r.
    + rewrite (Hfr eq_refl). simpl. now apply IH.
    + simpl. destruct f; rewrite IH; auto.
  - simpl sub_tabs. rewrite T. simpl.
    destruct (Py_UNICODE_ISSPACE c).
    + destruct f; rewrite IH; auto; discriminate.
    + rewrite IH; [reflexivity | discriminate].
Qed.

Lemma filter_split_in_sep (s : str) :
  filter nonempty (split_ws true s) = filter nonempty (split_ws false s).
Proof.
  destruct s as [|c s]; [reflexivity|].
  simpl. destruct (Py_UNICODE_ISSPACE c); reflexivity.
Qed.

(** Splitting around a whitespace character: the pieces before it, then the
    pieces after it. *)
Lemma split_app_space (w : Py_UCS4) (b : str) :
  Py_UNICODE_ISSPACE w = true ->
  forall a : str,
    (hd [] (split_ws false (a ++ w :: b)) = hd [] (split_ws false a)
     /\ filter nonempty (tl (split_ws false (a ++ w :: b)))
        = filter nonempty (tl (split_ws false a)) ++ pieces b)
    /\ filter nonempty (split_ws true (a ++ w :: b))
       = filter nonempty (split_ws true a) ++ pieces b.
Proof.
  intros Hw. unfold pieces, re_split_ws.
  induction a as [|c a [[IHhd IHtl] IHin]].
  - simpl. rewrite Hw. simpl. rewrite filter_split_in_sep. auto.
  - destruct (Py_UNICODE_ISSPACE c) eqn:E.
    + simpl. rewrite E. simpl. rewrite IHin. auto.
    + rewrite <- app_comm_cons. rewrite !split_ws_char by assumption.
      simpl. rewrite IHhd, IHtl. auto.
Qed.

Lemma pieces_app_space (a : str) w (b : str) :
  Py_UNICODE_ISSPACE w = true -> pieces (a ++ w :: b) = pieces a ++ pieces b.
Proof.
  intros Hw. destruct (@split_app_space w b Hw a) as [[Hhd Htl] _].
  unfold pieces at 1 2, re_split_ws.
  rewrite (split_ws_cons false (a ++ w :: b)), (split_ws_cons false a).
  simpl. rewrite Hhd, Htl.
  destruct (nonempty (hd [] (split_ws false a))); reflexivity.
Qed.

Lemma pieces_skip_space (sep b : str) :
  forallb Py_UNICODE_ISSPACE sep = true -> pieces (sep ++ b) = pieces b.
Proof.
  induction sep as [|w sep IH]; simpl; intros H; [reflexivity|].
  apply andb_true_iff in H. destruct H as [Hw H].
  change (pieces ([] ++ w :: sep ++ b) = pieces b).
  rewrite pieces_app_space by assumption. now apply IH.
Qed.

Lemma pieces_blank (sep : str) :
  forallb Py_UNICODE_ISSPACE sep = true -> pieces sep = [].
Proof.
  intros H. rewrite <- (app_nil_r sep). now rewrite pieces_skip_space.
Qed.

Lemma pieces_app_sep (a sep b : str) :
  sep <> [] -> forallb Py_UNICODE_ISSPACE sep = true ->
  pieces (a ++ sep ++ b) = pieces a ++ pieces b.
Proof.
  intros Hne H. destruct sep as [|w sep]; [contradiction|].
  simpl in H. apply andb_true_iff in H. destruct H as [Hw H].
  simpl. rewrite pieces_app_space by assumption.
  now rewrite pieces_skip_space.
Qed.

Lemma pieces_drop_end (a post : str) :
  forallb Py_UNICODE_ISSPACE post = true -> pieces (a ++ post) = pieces a.
Proof.
  intros H. destruct post as [|w post]; [now rewrite app_nil_r|].
  rewrite <- (app_nil_r (w :: post)).
  rewrite pieces_app_sep by (assumption || discriminate).
  apply app_nil_r.
Qed.

Lemma pieces_strip (t : str) : pieces (str_strip t) = pieces t.
Proof.
  destruct (strip_stripped t) as (pre & post & E & Hpre & Hpost & _).
  rewrite E at 2. rewrite pieces_skip_space by assumption.
  now rewrite pieces_drop_end.
Qed.

Lemma pieces_normalized (t : str) : pieces (normalized t) = pieces t.
Proof.
  unfold normalized, re_sub_tabs, pieces at 1, re_split_ws.
  rewrite split_sub_tabs by discriminate. apply pieces_strip.
Qed.

Lemma filter_tokens (toks : list str) :
  Forall (is_token Py_UNICODE_ISSPACE) toks -> filter nonempty toks = toks.
Proof.
  induction 1 as [|tok toks [Hne _] _ IH]; [reflexivity|].
  simpl. rewrite IH. destruct tok; [contradiction | reflexivity].
Qed.

Lemma tokens_of_pieces (t : str) : tokens_of t = pieces t.
Proof.
  rewrite <- pieces_normalized.
  assert (F := tokens_of_tokens t). unfold tokens_of in *.
  destruct (normalized t) as [|c r]; [reflexivity|].
  unfold pieces. now rewrite filter_tokens.
Qed.

(** The pieces of a split are runs of the text that was split. *)
Lemma split_head_prefix (s : str) :
  exists b, s = hd [] (split_ws false s) ++ b.
Proof.
  induction s as [|c s [b IH]]; [now exists []|].
  destruct (Py_UNICODE_ISSPACE c) eqn:E.
  - simpl. rewrite E. simpl. eauto.
  - rewrite split_ws_char by assumption. simpl. exists b. now rewrite <- IH.
Qed.

Lemma split_piece_occurs (s : str) :
  forall in_sep p, In p (split_ws in_sep s) -> occurs_in p s.
Proof.
  induction s as [|c s IH]; intros f p Hp.
  - simpl in Hp. destruct Hp as [<-|[]]. now exists [], [].
  - destruct (Py_UNICODE_ISSPACE c) eqn:E.
    + assert (Hcase : p = [] \/ In p (split_ws true s)).
      { simpl in Hp. rewrite E in Hp. destruct f; [now right|].
        destruct Hp as [<-|Hp]; [now left | now right]. }
      destruct Hcase as [->|Hin]; [now exists [], (c :: s)|].
      destruct (IH _ _ Hin) as (a & b & ->). now exists (c :: a), b.
    + rewrite split_ws_char in Hp by assumption.
      destruct Hp as [<-|Hin].
      * destruct (split_head_prefix s) as [b Hb].
        exists [], b. simpl. now rewrite <- Hb.
      * assert (Hin' : In p (split_ws false s)).
        { rewrite split_ws_cons. now right. }
        destruct (IH _ _ Hin') as (a & b & ->). now exists (c :: a), b.
Qed.

Lemma pieces_occur (t p : str) : In p (pieces t) -> occurs_in p t.
Proof.
  unfold pieces. intros H. apply filter_In in H. destruct H as [H _].
  now apply split_piece_occurs in H.
Qed.

Lemma pieces_word (t : str) :
  t <> [] -> existsb Py_UNICODE_ISSPACE t = false -> pieces t = [t].
Proof.
  intros Hne H.
  assert (Hall : forallb not_space t = true).
  { clear Hne. induction t as [|c t IH]; [reflexivity|].
    simpl in *. apply orb_false_iff in H. destruct H as [Hc H].
    unfold not_space at 1. rewrite Hc. now apply IH. }
  unfold pieces, re_split_ws. rewrite <- (app_nil_r t) at 1.
  rewrite split_ws_token by assumption. simpl. rewrite app_nil_r.
  destruct t; [contradiction | reflexivity].
Qed.

(** ** Lengths *)

Lemma skip_while_length p (s : str) :
  List.length (skip_while p s) <= List.length s.
Proof.
  induction s as [|c s IH]; simpl; [lia|].
  destruct (p c); simpl; lia.
Qed.

Lemma strip_length (t : str) : List.length (str_strip t) <= List.length t.
Proof.
  unfold str_strip, rstrip, lstrip. rewrite length_rev.
  etransitivity; [apply skip_while_length|]. rewrite length_rev.
  apply skip_while_length.
Qed.

Lemma sub_tabs_length b (s : str) :
  List.length (sub_tabs b s) <= List.length s.
Proof.
  revert b. induction s as [|c s IH]; intros b; simpl; [lia|].
  pose proof (IH true). pose proof (IH false).
  destruct (is_tab c); [destruct b|]; simpl; lia.
Qed.

Lemma normalized_length (t : str) :
  List.length (normalized t) <= List.length t.
Proof.
  unfold normalized, re_sub_tabs.
  etransitivity; [apply sub_tabs_length | apply strip_length].
Qed.

Lemma normalized_no_tab (t : str) : existsb is_tab (normalized t) = false.
Proof.
  assert (H := sub_tabs_no_tab false (str_strip t)).
  unfold normalized, re_sub_tabs.
  induction (sub_tabs false (str_strip t)) as [|c s IH]; [reflexivity|].
  simpl in *. apply andb_true_iff in H. destruct H as [Hc H].
  apply negb_true_iff in Hc. rewrite Hc. now apply IH.
Qed.

(** Between two tokens there is at least one character. *)
Lemma WhitespaceSplit_length ws (s : str) toks :
  WhitespaceSplit ws s toks -> 2 * List.length toks <= List.length s + 1.
Proof.
  induction 1 as [tok [Hne _]|tok sep s toks [Hne _] [Hs _] _ IH].
  - destruct tok; [contradiction | simpl; lia].
  - rewrite !length_app.
    destruct tok; [contradiction|]. destruct sep; [contradiction|].
    simpl in *. lia.
Qed.

Lemma tokens_of_length (t : str) :
  2 * List.length (tokens_of t) <= List.length t + 1.
Proof.
  destruct (normalized t) as [|c r] eqn:E.
  - unfold tokens_of. rewrite E. simpl. lia.
  - assert (H : normalized t <> []) by congruence.
    apply tokens_of_split, WhitespaceSplit_length in H.
    assert (L := normalized_length t). lia.
Qed.

Lemma strip_blank_iff (t : str) :
  str_strip t = [] <-> forallb Py_UNICODE_ISSPACE t = true.
Proof.
  split.
  - intros E. destruct (strip_stripped t) as (pre & post & Et & Hpre & Hpost & _).
    rewrite E in Et. rewrite Et. simpl. rewrite forallb_app.
    now rewrite Hpre, Hpost.
  - intros H. unfold str_strip, lstrip. now rewrite (skip_all _ _ H).
Qed.

Lemma tokens_of_nil_iff (t : str) :
  tokens_of t = [] <-> forallb Py_UNICODE_ISSPACE t = true.
Proof.
  split.
  - intros E. apply strip_blank_iff.
    destruct (str_strip t) as [|c r] eqn:Es; [reflexivity|].
    assert (H : str_strip t <> []) by congruence.
    apply normalized_nonempty, tokens_of_split, WhitespaceSplit_tokens in H.
    destruct H as [H _]. contradiction.
  - intros H. rewrite tokens_of_pieces. now apply pieces_blank.
Qed.

(** ** Further properties of the processor *)

(** X1. Normalisation does not change the tokens: [tokenize()] returns the
    non-empty pieces of the raw text split on its whitespace runs. *)
Theorem tokenize_splits_raw_text (t : str) :
  tokenize (mkSimpleTextProcessor t)
  = (Ok (filter nonempty (re_split_ws t)), mkSimpleTextProcessor t).
Proof.
  rewrite tokenize_run. cbn [text]. now rewrite tokens_of_pieces.
Qed.

(** X2. Every token occurs in the raw text as a contiguous run of its
    characters: tokens keep the characters of the input as they are. *)
Theorem tokens_occur_in_text (t : str) :
  exists toks,
    tokenize (mkSimpleTextProcessor t) = (Ok toks, mkSimpleTextProcessor t)
    /\ Forall (fun tok => occurs_in tok t) toks.
Proof.
  exists (tokens_of t). split; [apply tokenize_run|].
  apply Forall_forall. intros tok H.
  rewrite tokens_of_pieces in H. now apply pieces_occur.
Qed.

(** X3. The text [preprocess()] returns contains no tab and neither starts
    nor ends with a whitespace character. *)
Theorem preprocess_result_shape (t : str) :
  exists n,
    preprocess (mkSimpleTextProcessor t) = (Ok n, mkSimpleTextProcessor t)
    /\ existsb is_tab n = false
    /\ trimmed Py_UNICODE_ISSPACE n = true.
Proof.
  exists (normalized t).
  split; [apply preprocess_run|].
  split; [apply normalized_no_tab | apply normalized_trimmed].
Qed.

(** X4. [preprocess()] never returns a text longer than the raw text (the
    two lengths it logs), and it returns the raw text itself when that is
    already trimmed and free of tabs. *)
Theorem preprocess_never_longer (t : str) :
  exists n,
    preprocess (mkSimpleTextProcessor t) = (Ok n, mkSimpleTextProcessor t)
    /\ List.length n <= List.length t
    /\ (trimmed Py_UNICODE_ISSPACE t = true -> existsb is_tab t = false ->
        n = t).
Proof.
  exists (normalized t).
  split; [apply preprocess_run|].
  split; [apply normalized_length|].
  intros T H. unfold normalized. rewrite (strip_of_trimmed _ T).
  apply sub_tabs_fixed. clear T.
  induction t as [|c t IH]; [reflexivity|].
  simpl in *. apply orb_false_iff in H. destruct H as [Hc H].
  rewrite Hc. now apply IH.
Qed.

(** X5. Tokens and the whitespace between them take room: twice the word
    count is at most the length of the text plus one. *)
Theorem count_words_bound (t : str) :
  exists count,
    count_words (mkSimpleTextProcessor t) = (Ok count, mkSimpleTextProcessor t)
    /\ (2 * count <= Z.of_nat (List.length t) + 1)%Z.
Proof.
  exists (Z.of_nat (List.length (tokens_of t))).
  split; [apply count_words_run|].
  assert (H := tokens_of_length t). lia.
Qed.

(** X6. A word's frequency lies between 0 and the word count, and it is
    positive exactly for the words that are tokens of the text. *)
Theorem word_frequency_bounds (t w : str) :
  exists toks freq count,
    tokenize (mkSimpleTextProcessor t) = (Ok toks, mkSimpleTextProcessor t)
    /\ word_frequency (PyStr w) (mkSimpleTextProcessor t)
       = (Ok freq, mkSimpleTextProcessor t)
    /\ count_words (mkSimpleTextProcessor t)
       = (Ok count, mkSimpleTextProcessor t)
    /\ (0 <= freq <= count)%Z
    /\ ((0 < freq)%Z <-> In w toks).
Proof.
  exists (tokens_of t), (Z.of_nat (count_occ str_eq_dec (tokens_of t) w)),
         (Z.of_nat (List.length (tokens_of t))).
  split; [apply tokenize_run|].
  split; [apply word_frequency_run|].
  split; [apply count_words_run|].
  assert (B := count_occ_bound str_eq_dec w (tokens_of t)).
  split; [lia|].
  rewrite (count_occ_In str_eq_dec). lia.
Qed.

(** X7. A text made of two texts with whitespace between them has the
    tokens of the first followed by the tokens of the second. *)
Theorem tokenize_concat (a sep b : str) :
  sep <> [] -> forallb Py_UNICODE_ISSPACE sep = true ->
  exists ta tb,
    tokenize (mkSimpleTextProcessor a) = (Ok ta, mkSimpleTextProcessor a)
    /\ tokenize (mkSimpleTextProcessor b) = (Ok tb, mkSimpleTextProcessor b)
    /\ tokenize (mkSimpleTextProcessor (a ++ sep ++ b))
       = (Ok (ta ++ tb), mkSimpleTextProcessor (a ++ sep ++ b)).
Proof.
  intros Hne H. exists (tokens_of a), (tokens_of b).
  split; [apply tokenize_run|]. split; [apply tokenize_run|].
  rewrite tokenize_run. cbn [text].
  now rewrite !tokens_of_pieces, pieces_app_sep.
Qed.

(** Two lines of text, with a newline and a tab between them. *)
Lemma tokenize_concat_witness :
  exists ta tb,
    tokenize (mkSimpleTextProcessor (u "spam eggs")) = (Ok ta, mkSimpleTextProcessor (u "spam eggs"))
    /\ tokenize (mkSimpleTextProcessor (u "ham")) = (Ok tb, mkSimpleTextProcessor (u "ham"))
    /\ tokenize (mkSimpleTextProcessor (u "spam eggs" ++ [10%N; TAB] ++ u "ham"))
       = (Ok (ta ++ tb), mkSimpleTextProcessor (u "spam eggs" ++ [10%N; TAB] ++ u "ham")).
Proof.
  apply (@tokenize_concat (u "spam eggs") [10%N; TAB] (u "ham")).
  - discriminate.
  - reflexivity.
Defined.

(** X8. Word count and word frequency add up over two texts with
    whitespace between them. *)
Theorem counts_add_over_concat (a sep b w : str) :
  sep <> [] -> forallb Py_UNICODE_ISSPACE sep = true ->
  exists ca cb fa fb,
    count_words (mkSimpleTextProcessor a) = (Ok ca, mkSimpleTextProcessor a)
    /\ count_words (mkSimpleTextProcessor b) = (Ok cb, mkSimpleTextProcessor b)
    /\ count_words (mkSimpleTextProcessor (a ++ sep ++ b))
       = (Ok (ca + cb)%Z, mkSimpleTextProcessor (a ++ sep ++ b))
    /\ word_frequency (PyStr w) (mkSimpleTextProcessor a)
       = (Ok fa, mkSimpleTextProcessor a)
    /\ word_frequency (PyStr w) (mkSimpleTextProcessor b)
       = (Ok fb, mkSimpleTextProcessor b)
    /\ word_frequency (PyStr w) (mkSimpleTextProcessor (a ++ sep ++ b))
       = (Ok (fa + fb)%Z, mkSimpleTextProcessor (a ++ sep ++ b)).
Proof.
  intros Hne H.
  assert (E : tokens_of (a ++ sep ++ b) = tokens_of a ++ tokens_of b)
    by now rewrite !tokens_of_pieces, pieces_app_sep.
  exists (Z.of_nat (List.length (tokens_of a))),
         (Z.of_nat (List.length (tokens_of b))),
         (Z.of_nat (count_occ str_eq_dec (tokens_of a) w)),
         (Z.of_nat (count_occ str_eq_dec (tokens_of b) w)).
  split; [apply count_words_run|]. split; [apply count_words_run|].
  split; [|split; [apply word_frequency_run|
                   split; [apply word_frequency_run|]]].
  - rewrite count_words_run. cbn [text]. rewrite E, length_app.
    now rewrite Nat2Z.inj_add.
  - rewrite word_frequency_run. cbn [text]. rewrite E, count_occ_app.
    now rewrite Nat2Z.inj_add.
Qed.

Lemma counts_add_over_concat_witness :
  exists ca cb fa fb,
    count_words (mkSimpleTextProcessor (u "spam eggs")) = (Ok ca, mkSimpleTextProcessor (u "spam eggs"))
    /\ count_words (mkSimpleTextProcessor (u "spam")) = (Ok cb, mkSimpleTextProcessor (u "spam"))
    /\ count_words (mkSimpleTextProcessor (u "spam eggs" ++ u "  " ++ u "spam"))
       = (Ok (ca + cb)%Z, mkSimpleTextProcessor (u "spam eggs" ++ u "  " ++ u "spam"))
    /\ word_frequency (PyStr (u "spam")) (mkSimpleTextProcessor (u "spam eggs"))
       = (Ok fa, mkSimpleTextProcessor (u "spam eggs"))
    /\ word_frequency (PyStr (u "spam")) (mkSimpleTextProcessor (u "spam"))
       = (Ok fb, mkSimpleTextProcessor (u "spam"))
    /\ word_frequency (PyStr (u "spam")) (mkSimpleTextProcessor (u "spam eggs" ++ u "  " ++ u "spam"))
       = (Ok (fa + fb)%Z, mkSimpleTextProcessor (u "spam eggs" ++ u "  " ++ u "spam")).
Proof.
  apply (@counts_add_over_concat (u "spam eggs") (u "  ") (u "spam") (u "spam")).
  - discriminate.
  - reflexivity.
Defined.

(** X9. The word count is 0 exactly for the texts that consist of
    whitespace only (the empty text among them). *)
Theorem count_words_zero_iff_blank (t : str) :
  count_words (mkSimpleTextProcessor t) = (Ok 0%Z, mkSimpleTextProcessor t)
  <-> forallb Py_UNICODE_ISSPACE t = true.
Proof.
  rewrite count_words_run. cbn [text]. rewrite <- tokens_of_nil_iff.
  split.
  - intros H. injection H as H. destruct (tokens_of t); [reflexivity|].
    simpl in H. lia.
  - intros ->. reflexivity.
Qed.

(** X10. A non-empty text without whitespace is its own single token, and
    its frequency in itself is 1. *)
Theorem single_word_text (t : str) :
  t <> [] -> existsb Py_UNICODE_ISSPACE t = false ->
  tokenize (mkSimpleTextProcessor t) = (Ok [t], mkSimpleTextProcessor t)
  /\ word_frequency (PyStr t) (mkSimpleTextProcessor t)
     = (Ok 1%Z, mkSimpleTextProcessor t).
Proof.
  intros Hne H.
  assert (E : tokens_of t = [t])
    by (rewrite tokens_of_pieces; now apply pieces_word).
  split.
  - rewrite tokenize_run. cbn [text]. now rewrite E.
  - rewrite word_frequency_run. cbn [text]. rewrite E. simpl.
    destruct (str_eq_dec t t); [reflexivity | contradiction].
Qed.

Lemma single_word_text_witness :
  tokenize (mkSimpleTextProcessor (u "Hello,world!"))
  = (Ok [u "Hello,world!"], mkSimpleTextProcessor (u "Hello,world!"))
  /\ word_frequency (PyStr (u "Hello,world!")) (mkSimpleTextProcessor (u "Hello,world!"))
     = (Ok 1%Z, mkSimpleTextProcessor (u "Hello,world!")).
Proof.
  apply (@single_word_text (u "Hello,world!")).
  - discriminate.
  - reflexivity.
Defined.

(** X11. A processor built from the text that [preprocess()] returned has
    the same tokens, and so the same word count, as the processor of the raw
    text. *)
Theorem tokenize_after_preprocess (t : str) :
  exists n toks count,
    preprocess (mkSimpleTextProcessor t) = (Ok n, mkSimpleTextProcessor t)
    /\ tokenize (mkSimpleTextProcessor t) = (Ok toks, mkSimpleTextProcessor t)
    /\ tokenize (mkSimpleTextProcessor n) = (Ok toks, mkSimpleTextProcessor n)
    /\ count_words (mkSimpleTextProcessor t) = (Ok count, mkSimpleTextProcessor t)
    /\ count_words (mkSimpleTextProcessor n) = (Ok count, mkSimpleTextProcessor n).
Proof.
  assert (E : tokens_of (normalized t) = tokens_of t)
    by (rewrite !tokens_of_pieces; apply pieces_normalized).
  exists (normalized t), (tokens_of t), (Z.of_nat (List.length (tokens_of t))).
  split; [apply preprocess_run|]. split; [apply tokenize_run|].
  split; [|split; [apply count_words_run|]].
  - rewrite tokenize_run. cbn [text]. now rewrite E.
  - rewrite count_words_run. cbn [text]. now rewrite E.
Qed.

(** ** The commands of the command line *)

Lemma get_text_input_cases fs text file :
  (exists s, get_text_input fs text file = Return (Some s))
  \/ (exists e, get_text_input fs text file = Raised e).
Proof.
  unfold get_text_input.
  destruct text as [[|c t]|], file as [f|]; simpl; eauto;
    destruct (fs f); eauto.
Qed.

Lemma get_text_input_own_errors fs text file e :
  get_text_input fs text file = Raised e -> forall e', e <> ProcessorError e'.
Proof.
  unfold get_text_input. intros E e' ->. revert E.
  destruct text as [[|c t]|], file as [f|]; simpl;
    try discriminate; destruct (fs f); discriminate.
Qed.

Lemma call_count_words (t : str) :
  call count_words (mkSimpleTextProcessor t)
  = Return (Z.of_nat (List.length (pieces t))).
Proof.
  unfold call. rewrite count_words_run. cbn [fst text].
  now rewrite tokens_of_pieces.
Qed.

Lemma call_word_frequency (t w : str) :
  call (word_frequency (PyStr w)) (mkSimpleTextProcessor t)
  = Return (Z.of_nat (count_occ str_eq_dec (pieces t) w)).
Proof.
  unfold call. rewrite word_frequency_run. cbn [fst text].
  now rewrite tokens_of_pieces.
Qed.

Lemma cmd_count_cases fs args :
  (exists t,
     get_text_input fs (args_text args) (args_file args) = Return (Some t)
     /\ cmd_count fs args
        = (0%Z, [Stdout (Z.of_nat (List.length (pieces t)))]))
  \/ (exists e,
        get_text_input fs (args_text args) (args_file args) = Raised e
        /\ cmd_count fs args = (1%Z, [Stderr ("Error: " ++ str_exception e)])).
Proof.
  unfold cmd_count.
  destruct (get_text_input_cases fs (args_text args) (args_file args))
    as [[t E]|[e E]]; rewrite E; [left; exists t | right; exists e];
    (split; [reflexivity|]); simpl.
  - now rewrite call_count_words.
  - reflexivity.
Qed.

Lemma cmd_freq_cases fs args :
  (exists t,
     get_text_input fs (args_text args) (args_file args) = Return (Some t)
     /\ cmd_freq fs args
        = (0%Z, [Stdout (Z.of_nat
                   (count_occ str_eq_dec (pieces t) (args_word args)))]))
  \/ (exists e,
        get_text_input fs (args_text args) (args_file args) = Raised e
        /\ cmd_freq fs args = (1%Z, [Stderr ("Error: " ++ str_exception e)])).
Proof.
  unfold cmd_freq.
  destruct (get_text_input_cases fs (args_text args) (args_file args))
    as [[t E]|[e E]]; rewrite E; [left; exists t | right; exists e];
    (split; [reflexivity|]); simpl.
  - now rewrite call_word_frequency.
  - reflexivity.
Qed.

(** X12. [get_text_input] returns a text in two cases only: the text
    argument, when it is non-empty and no file is given; the content of the
    file, when a file is given, can be read, and the text argument is absent
    or empty.  It never returns [None]; an empty text argument counts as no
    text. *)
Theorem get_text_input_selects fs text file r :
  get_text_input fs text file = Return r <->
  exists s,
    r = Some s
    /\ ((file = None /\ text = Some s /\ s <> [])
        \/ (exists f,
              file = Some f /\ truthy_str text = false /\ fs f = Content s)).
Proof.
  unfold get_text_input. split.
  - destruct text as [[|c t]|], file as [f|]; simpl; try discriminate.
    + destruct (fs f) eqn:E; try discriminate.
      intros H. injection H as <-. exists s. split; [reflexivity|].
      right. exists f. auto.
    + intros H. injection H as <-. exists (c :: t). split; [reflexivity|].
      left. repeat split. discriminate.
    + destruct (fs f) eqn:E; try discriminate.
      intros H. injection H as <-. exists s. split; [reflexivity|].
      right. exists f. auto.
  - intros (s & -> & [(-> & -> & Hne)|(f & -> & Ht & Hf)]).
    + destruct s; [contradiction | reflexivity].
    + rewrite Ht. simpl. now rewrite Hf.
Qed.

(** X13. [cmd_count] either selects an input text, prints the number of
    non-empty pieces of that text split on whitespace and returns 0, or it
    prints ["Error: "] and the message of the exception that the selection
    of the input raised to standard error and returns 1.  The processor
    itself never fails under it. *)
Theorem cmd_count_outcome fs args :
  (exists t,
     get_text_input fs (args_text args) (args_file args) = Return (Some t)
     /\ cmd_count fs args
        = (0%Z, [Stdout (Z.of_nat (List.length
                                     (filter nonempty (re_split_ws t))))]))
  \/ (exists e,
        get_text_input fs (args_text args) (args_file args) = Raised e
        /\ (forall e', e <> ProcessorError e')
        /\ cmd_count fs args = (1%Z, [Stderr ("Error: " ++ str_exception e)])).
Proof.
  destruct (cmd_count_cases fs args) as [H|(e & E & H)]; [now left|].
  right. exists e. split; [exact E|]. split; [|exact H].
  exact (get_text_input_own_errors _ _ _ E).
Qed.

(** X14. [cmd_freq] either selects an input text, prints the number of its
    whitespace-separated pieces that are equal to the word and returns 0, or
    reports the exception of the input selection and returns 1.  The word of
    the command line is a [str], so the [TypeError] of [word_frequency] never
    shows. *)
Theorem cmd_freq_outcome fs args :
  (exists t,
     get_text_input fs (args_text args) (args_file args) = Return (Some t)
     /\ cmd_freq fs args
        = (0%Z, [Stdout (Z.of_nat
                   (count_occ str_eq_dec (filter nonempty (re_split_ws t))
                      (args_word args)))]))
  \/ (exists e,
        get_text_input fs (args_text args) (args_file args) = Raised e
        /\ (forall e', e <> ProcessorError e')
        /\ cmd_freq fs args = (1%Z, [Stderr ("Error: " ++ str_exception e)])).
Proof.
  destruct (cmd_freq_cases fs args) as [H|(e & E & H)]; [now left|].
  right. exists e. split; [exact E|]. split; [|exact H].
  exact (get_text_input_own_errors _ _ _ E).
Qed.


(** X16. When a non-empty text argument is given, no file is read: what
    [main] prints and returns is the same in every file system. *)
Theorem text_argument_reads_no_file fs1 fs2 args :
  truthy_str (args_text args) = true ->
  main fs1 args = main fs2 args.
Proof.
  intros H.
  assert (E : get_text_input fs1 (args_text args) (args_file args)
              = get_text_input fs2 (args_text args) (args_file args)).
  { unfold get_text_input. rewrite H.
    destruct (args_file args); reflexivity. }
  unfold main, cmd_count, cmd_freq. now rewrite E.
Qed.

Lemma text_argument_reads_no_file_witness :
  main (fun _ => NotFound)
       (mkNamespace (Some "count"%string) (Some (u "a b")) None [])
  = main (fun _ => Content (u "x y z"))
         (mkNamespace (Some "count"%string) (Some (u "a b")) None []).
Proof.
  apply (@text_argument_reads_no_file (fun _ => NotFound)
           (fun _ => Content (u "x y z"))
           (mkNamespace (Some "count"%string) (Some (u "a b")) None [])).
  reflexivity.
Defined.

(** ** The renaming script *)

Example str_count_replace_do_not_overlap :
  str_count (u "aaa") (u "aa") = 1%Z
  /\ str_replace (u "aaa") (u "aa") (u "b") = u "ba"
  /\ str_count (u "ab") [] = 3%Z
  /\ str_replace (u "ab") [] (u "-") = u "-a-b-"
  /\ str_replace (u "my_project_name") (u "_") (u "-") = u "my-project-name".
Proof. repeat split. Qed.

Lemma starts_with_iff (p s : str) :
  starts_with p s = true <-> exists b, s = p ++ b.
Proof.
  revert s. induction p as [|x p IH]; intros s; simpl.
  - split; [eauto | reflexivity].
  - destruct s as [|y s].
    + split; [discriminate | intros [b H]; discriminate].
    + rewrite andb_true_iff, N.eqb_eq, IH. split.
      * intros [-> [b ->]]. eauto.
      * intros [b H]. injection H as -> ->. eauto.
Qed.

Lemma str_in_unfold (p s : str) :
  str_in p s
  = starts_with p s || match s with [] => false | _ :: s' => str_in p s' end.
Proof. destruct s; reflexivity. Qed.

Lemma str_in_iff (p s : str) : str_in p s = true <-> occurs_in p s.
Proof.
  split.
  - induction s as [|c s IH]; rewrite str_in_unfold, orb_true_iff.
    + intros [H|H]; [|discriminate].
      apply starts_with_iff in H. destruct H as [b ->]. now exists [], b.
    + intros [H|H].
      * apply starts_with_iff in H. destruct H as [b ->]. now exists [], b.
      * destruct (IH H) as (a & b & ->). now exists (c :: a), b.
  - intros (a & b & ->). induction a as [|c a IH].
    + rewrite str_in_unfold. simpl app.
      rewrite (proj2 (starts_with_iff p (p ++ b))) by eauto. reflexivity.
    + change (starts_with p (c :: a ++ p ++ b) || str_in p (a ++ p ++ b)
              = true).
      rewrite IH. apply orb_true_r.
Qed.

Lemma occurs_in_trans (p q s : str) :
  occurs_in p q -> occurs_in q s -> occurs_in p s.
Proof.
  intros (a & b & ->) (a' & b' & ->).
  exists (a' ++ a), (b ++ b'). now rewrite <- !app_assoc.
Qed.

Lemma str_in_absent (p q s : str) :
  occurs_in p q -> str_in p s = false -> str_in q s = false.
Proof.
  intros Hpq Hp. destruct (str_in q s) eqn:E; [|reflexivity].
  apply str_in_iff in E.
  apply (occurs_in_trans Hpq), str_in_iff in E. congruence.
Qed.

(** Every pattern of the list contains the old name or its form with
    hyphens. *)
Lemma get_replacements_patterns (old_name new_name : str) :
  Forall (fun pair =>
            occurs_in old_name (fst pair)
            \/ occurs_in (str_replace old_name (u "_") (u "-")) (fst pair))
         (get_replacements old_name new_name).
Proof.
  unfold get_replacements.
  repeat (apply Forall_cons; [|]); try apply Forall_nil; cbn [fst].
  - left. exists [], []. now rewrite app_nil_r.
  - right. exists [], []. now rewrite app_nil_r.
  - left. now exists [34%N], [34%N].
  - left. now exists [39%N], [39%N].
  - right. now exists [34%N], [34%N].
  - right. now exists [39%N], [39%N].
  - left. exists (u "from "), []. now rewrite app_nil_r.
  - left. exists (u "import "), []. now rewrite app_nil_r.
  - left. now exists [96%N], [96%N].
  - right. now exists [96%N], [96%N].
Qed.


Lemma fold_no_match (content : str) replacements :
  Forall (fun pair => str_in (fst pair) content = false) replacements ->
  forall total,
    fold_left apply_replacement replacements (content, total)
    = (content, total).
Proof.
  induction 1 as [|[old_str new_str] l H _ IH]; intros total; [reflexivity|].
  simpl in *. rewrite H. apply IH.
Qed.




(** X17. A file whose content mentions neither the old name nor the old
    name with hyphens for underscores is left as it is, with 0 replacements
    reported, whatever the new name and with or without [dry_run]. *)
Theorem untouched_without_old_name
    fs path (content old_name new_name : str) dry_run :
  read_text fs path = Content content ->
  str_in old_name content = false ->
  str_in (str_replace old_name (u "_") (u "-")) content = false ->
  update_file_contents path (get_replacements old_name new_name) dry_run fs
  = (mkReplacementStats path 0, fs).
Proof.
  intros Hread Hname Hhyphen. unfold update_file_contents. rewrite Hread.
  rewrite fold_no_match; [reflexivity|].
  eapply Forall_impl; [|apply get_replacements_patterns].
  intros pair [H|H]; eapply str_in_absent; eauto.
Qed.

Lemma untouched_without_old_name_witness :
  update_file_contents "README.md"%string
    (get_replacements (u "project_name") (u "my_app")) false
    (mkFiles (fun _ => Content (u "import os")) (fun _ => true))
  = (mkReplacementStats "README.md"%string 0,
     mkFiles (fun _ => Content (u "import os")) (fun _ => true)).
Proof.
  apply (@untouched_without_old_name
           (mkFiles (fun _ => Content (u "import os")) (fun _ => true))
           "README.md"%string (u "import os") (u "project_name") (u "my_app") false);
    reflexivity.
Defined.


(** X19. With [dry_run] the files stay as they are; without it, no file
    other than the one at [path] changes; and when the file can be written,
    the dry run reports the statistics of the real run. *)
Theorem dry_run_predicts_real_run fs path replacements :
  snd (update_file_contents path replacements true fs) = fs
  /\ (forall p, p <> path ->
        read_text (snd (update_file_contents path replacements false fs)) p
        = read_text fs p)
  /\ (can_write fs path = true ->
      fst (update_file_contents path replacements true fs)
      = fst (update_file_contents path replacements false fs)).
Proof.
  unfold update_file_contents.
  destruct (read_text fs path) as [content0| |msg]; try (now repeat split).
  destruct (fold_left apply_replacement replacements (content0, 0%Z))
    as [content total].
  rewrite andb_false_r, andb_true_r.
  split; [reflexivity|]. split.
  - intros p Hp. destruct (0 <? total)%Z; [|reflexivity].
    destruct (can_write fs path); [|reflexivity].
    cbn [snd write_text read_text].
    destruct (p =? path)%string eqn:Ep; [|reflexivity].
    apply String.eqb_eq in Ep. contradiction.
  - intros ->. now destruct (0 <? total)%Z.
Qed.
